(** * Tag queries of the desktop client: app/src/lib/git/tag.ts

    A shallow embedding of the five tag operations and of the text
    parsers they apply to the output of the git runner, followed by the
    properties of the parsers.

    Strings are [string] (sequences of 8-bit characters); the source
    manipulates sequences of UTF-16 code units, and every operation it
    uses here ([split] on a one-character separator, [startsWith],
    [endsWith], anchored [replace], comparison with a literal) acts on
    the sequence unit by unit, so the alphabet plays no role.

    The two collaborators imported from ./core, [git] and
    [gitNetworkArguments], are not part of the file: they are the
    variables of [Section TagQueryLayer].  An awaited promise is a value
    of [Promise A]: either the rejection or the value it resolves to. *)

From Stdlib Require Import Strings.String Strings.Ascii Lists.List Bool.Bool Arith.PeanoNat Lia.
From ExtLib Require Import Structures.Monad Data.Monads.EitherMonad.
Import ListNotations.
Import MonadNotation.
Local Open Scope list_scope.
Local Open Scope string_scope.
Local Open Scope monad_scope.

(** ** JavaScript string and array primitives used by tag.ts *)

Module JS.

(** The characters tag.ts splits on. *)
Definition LF : ascii := "010"%char.
Definition TAB : ascii := "009"%char.
Definition NUL : ascii := "000"%char.

(** [s.split(sep)] for a separator of one character.  The result is
    never empty: [''.split(sep)] is [['']]. *)
Fixpoint split (sep : ascii) (s : string) : list string :=
  match s with
  | EmptyString => [EmptyString]
  | String c rest =>
      if Ascii.eqb c sep then EmptyString :: split sep rest
      else match split sep rest with
           | field :: fields => String c field :: fields
           | [] => [String c EmptyString]
           end
  end.

(** [s.startsWith(p)]. *)
Fixpoint startsWith (s p : string) {struct p} : bool :=
  match p, s with
  | EmptyString, _ => true
  | String _ _, EmptyString => false
  | String a p', String b s' => Ascii.eqb a b && startsWith s' p'
  end.

(** [s.endsWith(suffix)]: some tail of [s] is [suffix]. *)
Fixpoint endsWith (s suffix : string) : bool :=
  String.eqb s suffix
  || match s with
     | EmptyString => false
     | String _ rest => endsWith rest suffix
     end.

(** [drop n s]: [s] without its first [n] characters. *)
Fixpoint drop (n : nat) (s : string) : string :=
  match n, s with
  | O, _ => s
  | S _, EmptyString => EmptyString
  | S m, String _ rest => drop m rest
  end.

(** [s.replace(/^lit/, '')] for a regular expression that is the
    anchor [^] followed by literal characters only: the literal is
    removed when [s] starts with it, and [s] is returned unchanged
    otherwise (no [g] or [m] flag: one match, at position 0 only). *)
Definition replaceAtStart (lit s : string) : string :=
  if startsWith s lit then drop (String.length lit) s else s.

(** [xs.filter(x => x !== null)] on an array of [string | null]. *)
Fixpoint filterNotNull (xs : list (option string)) : list string :=
  match xs with
  | [] => []
  | None :: rest => filterNotNull rest
  | Some x :: rest => x :: filterNotNull rest
  end.

End JS.

Import JS.

(** ** Models and collaborators *)

(** Modelled from the spec: the repository model (models/repository is
    imported, not defined, by tag.ts), reduced to the on-disk location
    the operations pass to the runner as working directory. *)
Record Repository := { path : string }.

(** Modelled from the spec: the remote (models/remote), "an opaque
    handle with at least a name attribute". *)
Record IRemote := { name : string; url : string }.

(** Modelled from the spec: the credential (models/git-account), which
    tag.ts only passes on to [gitNetworkArguments]. *)
Record IGitAccount := { login : string; endpoint : string }.

(** Modelled from the spec: the result of a run of the command runner,
    of which tag.ts reads the standard output text only. *)
Record IGitExecutionResult := { stdout : string }.

(** Modelled from the spec: the failure of a run, "carrying the
    underlying tool's diagnostic output". *)
Record GitError := { message : string }.

(** An awaited promise. *)
Definition Promise (A : Type) : Type := sum GitError A.
Definition resolve {A : Type} (a : A) : Promise A := inr a.
Definition reject {A : Type} (e : GitError) : Promise A := inl e.

(** [await p; k] is the bind of the error monad: a rejection is
    propagated to the caller. *)
#[global] Instance Monad_Promise : Monad Promise := Monad_either GitError.

(** ** The per-line callbacks *)

(** [tagLine => ...] of [getAnnotatedTags] (tag.ts 54-67).
    [const [name, objectType] = tagLine.split('\0')]: with a single
    field [objectType] is [undefined], which differs from ['tag']. *)
Definition getAnnotatedTags_tagLine (tagLine : string) : string :=
  if String.eqb tagLine "" then ""
  else
    match split NUL tagLine with
    | name :: objectType :: _ =>
        if negb (String.eqb objectType "tag") then "" else name
    | _ => ""
    end.

(** [line => ...] of [fetchRemoteTags] (tag.ts 90-106); [None] is
    [null].  [const [, fullTagName] = line.split('\t')].

    The second regular expression is written [/^{}/] in the source.  In
    a JavaScript pattern without the [u] flag an unescaped [^] is the
    start-of-input assertion and braces that do not form a quantifier
    are literal characters, so the pattern matches the two characters
    [{}] at the start of the string, not the three characters [^{}]. *)
Definition fetchRemoteTags_line (line : string) : option string :=
  match split TAB line with
  | _ :: fullTagName :: _ =>
      if String.eqb fullTagName "" then None
      else if endsWith fullTagName "^{}" then None
      else Some (replaceAtStart "{}" (replaceAtStart "refs/tags/" fullTagName))
  | _ => None
  end.

(** ** The operations *)

Section TagQueryLayer.

(** [git(args, path, name)] of ./core, the command runner. *)
Variable git : list string -> string -> string -> Promise IGitExecutionResult.

(** [gitNetworkArguments(repository, account)] of ./core, the
    network-argument provider. *)
Variable gitNetworkArguments :
  Repository -> option IGitAccount -> Promise (list string).

(** tag.ts 13-21. *)
Definition createTag (repository : Repository) (name targetCommitSha : string)
  : Promise unit :=
  let args := ["tag"; "-a"; "-m"; ""; name; targetCommitSha] in
  _ <- git args (path repository) "createTag" ;;
  ret tt.

(** tag.ts 28-36. *)
Definition getAllTags (repository : Repository) : Promise (list string) :=
  let args := ["tag"] in
  tags <- git args (path repository) "getAllTags" ;;
  ret (filter (fun s => negb (String.eqb s "")) (split LF (stdout tags))).

(** The format string built at tag.ts 46. *)
Definition annotatedFormat : string :=
  String.concat "%00" ["%(refname:strip=2)"; "%(objecttype)"].

(** tag.ts 43-69. *)
Definition getAnnotatedTags (repository : Repository) : Promise (list string) :=
  let format := annotatedFormat in
  let args := ["tag"; "--format=" ++ format] in
  r <- git args (path repository) "getAnnotatedTags" ;;
  let rawTags := split LF (stdout r) in
  ret (filter (fun tag => negb (String.eqb tag ""))
         (map getAnnotatedTags_tagLine rawTags)).

(** tag.ts 78-110. *)
Definition fetchRemoteTags (repository : Repository)
    (account : option IGitAccount) (remote : IRemote) : Promise (list string) :=
  networkArguments <- gitNetworkArguments repository account ;;
  let args := (networkArguments ++ ["ls-remote"; "--tags"; name remote])%list in
  result <- git args (path repository) "fetchUnpushedTags" ;;
  let tags :=
    filterNotNull (map fetchRemoteTags_line (split LF (stdout result))) in
  ret tags.

(** tag.ts 118-138. *)
Definition isTagReachableByRemote (repository : Repository) (tag : string)
    (remote : IRemote) : Promise bool :=
  let args := ["branch"; "--remote"; "--contains"; tag;
               "--format=%(refname:short)"] in
  r <- git args (path repository) "isTagReachableByRemote" ;;
  let branches :=
    filter (fun line => startsWith line (name remote ++ "/"))
      (split LF (stdout r)) in
  ret (Nat.ltb 0 (List.length branches)).

End TagQueryLayer.

(** ** Vocabulary of the statements *)

(** [hasChar c s]: the character [c] occurs in [s]. *)
Fixpoint hasChar (c : ascii) (s : string) : bool :=
  match s with
  | EmptyString => false
  | String d rest => Ascii.eqb d c || hasChar c rest
  end.

(** The separators as one-character strings. *)
Definition lf : string := String LF EmptyString.
Definition tab : string := String TAB EmptyString.
Definition nul : string := String NUL EmptyString.

(** The argument lists the operations hand to the runner. *)
Definition getAnnotatedTags_args : list string :=
  ["tag"; "--format=%(refname:strip=2)%00%(objecttype)"].

Definition fetchRemoteTags_args (networkArguments : list string) (remote : IRemote)
  : list string :=
  (networkArguments ++ ["ls-remote"; "--tags"; name remote])%list.

Definition isTagReachableByRemote_args (tag : string) : list string :=
  ["branch"; "--remote"; "--contains"; tag; "--format=%(refname:short)"].

(** The name section 4.3 of the specification keeps for one line of the
    formatted listing, with the amendment that an empty first field is
    not kept: the first null-separated field when the second one is
    literally [tag]. *)
Definition keptAnnotatedName (line : string) : list string :=
  match split NUL line with
  | first :: second :: _ =>
      if String.eqb second "tag" && negb (String.eqb first "") then [first] else []
  | _ => []
  end.

(** The same rule as the specification words it, without the amendment. *)
Definition keptAnnotatedName_as_stated (line : string) : list string :=
  if String.eqb line "" then []
  else
    match split NUL line with
    | first :: second :: _ => if String.eqb second "tag" then [first] else []
    | _ => []
    end.

(** The ref paths of the lines [fetchRemoteTags] keeps: the second
    tab-separated field of each line, when it is present, not empty and
    not a peeled [^{}] entry. *)
Definition unpeeledRefPath (line : string) : list string :=
  match split TAB line with
  | _ :: refPath :: _ =>
      if String.eqb refPath "" || endsWith refPath "^{}" then [] else [refPath]
  | _ => []
  end.

(** The name [fetchRemoteTags] makes of a ref path it keeps: the two
    replacements of tag.ts 105. *)
Definition normalizedName (refPath : string) : string :=
  replaceAtStart "{}" (replaceAtStart "refs/tags/" refPath).

Definition unpeeledRefPaths (out : string) : list string :=
  flat_map unpeeledRefPath (split LF out).

(** A ref path [refs/tags/<name>] whose [<name>] does not begin with
    the two characters [{}]. *)
Definition plainTagRef (refPath : string) : bool :=
  startsWith refPath "refs/tags/"
  && negb (startsWith (drop (String.length "refs/tags/") refPath) "{}").

(** The plain and the formatted listing of the same local tags, each
    tag given by its name and the type of the object it points to. *)
Fixpoint plainListing (tags : list (string * string)) : string :=
  match tags with
  | [] => ""
  | (tagName, _) :: rest => tagName ++ lf ++ plainListing rest
  end.

Fixpoint formattedListing (tags : list (string * string)) : string :=
  match tags with
  | [] => ""
  | (tagName, objectType) :: rest =>
      tagName ++ nul ++ objectType ++ lf ++ formattedListing rest
  end.

(** The tags of a listing are well formed when no name holds a newline
    or a null byte and no object type holds a newline. *)
Definition wellFormedTag (t : string * string) : bool :=
  negb (hasChar LF (fst t)) && negb (hasChar NUL (fst t))
  && negb (hasChar LF (snd t)).

(** [isField s]: [s] can stand as one tab-separated field of one line,
    as an object id or a ref path does. *)
Definition isField (s : string) : bool :=
  negb (hasChar TAB s) && negb (hasChar LF s).

(** ** Test doubles: a runner that answers with canned text *)

Definition cannedGit (out : string)
  : list string -> string -> string -> Promise IGitExecutionResult :=
  fun _ _ _ => resolve {| stdout := out |}.

Definition noNetworkArguments
  : Repository -> option IGitAccount -> Promise (list string) :=
  fun _ _ => resolve [].

Definition someRepository : Repository := {| path := "/home/user/repo" |}.
Definition origin : IRemote :=
  {| name := "origin"; url := "https://example.com/repo.git" |}.

(** A remote listing with an annotated tag (two lines, the second one
    peeled) and a lightweight tag. *)
Definition peeledListing : string :=
  "<sha1>" ++ tab ++ "refs/tags/v1" ++ lf
  ++ "<sha2>" ++ tab ++ "refs/tags/v1^{}" ++ lf
  ++ "<sha3>" ++ tab ++ "refs/tags/v2" ++ lf.

(** The same listing, line by line and field by field. *)
Definition peeledLines : list (list string) :=
  [ ["<sha1>"; "refs/tags/v1"]; ["<sha2>"; "refs/tags/v1^{}"];
    ["<sha3>"; "refs/tags/v2"]; [""] ].

(** Three local tags: two annotated, one lightweight. *)
Definition threeTags : list (string * string) :=
  [("v1", "tag"); ("v2", "commit"); ("v3", "tag")].

(** A runner over a repository that holds [tags]: the plain listing for
    [git tag], the formatted one for [git tag --format=...]. *)
Definition localTagsGit (tags : list (string * string))
  : list string -> string -> string -> Promise IGitExecutionResult :=
  fun args _ _ =>
    match args with
    | [_] => resolve {| stdout := plainListing tags |}
    | _ => resolve {| stdout := formattedListing tags |}
    end.

(** ** Text as lines of fields *)

(** [isLineOf line out]: [line] is one of the newline-separated lines
    of [out]: it holds no newline, it starts at the start of [out] or
    just after a newline, and it ends at the end of [out] or just before
    a newline. *)
Definition isLineOf (line out : string) : Prop :=
  hasChar LF line = false
  /\ exists before after,
      out = before ++ line ++ after
      /\ (before = "" \/ exists p, before = p ++ lf)
      /\ (after = "" \/ exists q, after = lf ++ q).

(** A line written from its tab-separated fields, a text from its
    lines. *)
Definition joinFields (fields : list string) : string :=
  String.concat tab fields.

Definition joinLines (lines : list string) : string :=
  String.concat lf lines.

(** The ref path of a line given by its fields, when [fetchRemoteTags]
    keeps the line: the second field, present, not empty and not a
    peeled [^{}] entry. *)
Definition keptRefPath (fields : list string) : list string :=
  match fields with
  | _ :: refPath :: _ =>
      if String.eqb refPath "" || endsWith refPath "^{}" then [] else [refPath]
  | _ => []
  end.

(** A local tag whose name can stand on a line of its own: not empty,
    no newline. *)
Definition listedName (t : string * string) : bool :=
  negb (String.eqb (fst t) "") && negb (hasChar LF (fst t)).

(** ** Remote listings as the tool prints them *)

(** The ref path of a tag and the ref path of its peeled entry. *)
Definition tagRef (n : string) : string := "refs/tags/" ++ n.
Definition peeledRef (n : string) : string := tagRef n ++ "^{}".

(** One tag of a remote: the object id of its ref, its name and, for an
    annotated tag, the object id of the commit it peels to. *)
Record RemoteTag :=
  { rt_id : string; rt_name : string; rt_peeled : option string }.

(** The listing of the tags of a remote: one line per tag, followed by
    the peeled line when the tag is annotated. *)
Fixpoint remoteListing (tags : list RemoteTag) : string :=
  match tags with
  | [] => ""
  | t :: rest =>
      rt_id t ++ tab ++ tagRef (rt_name t) ++ lf
      ++ match rt_peeled t with
         | Some id => id ++ tab ++ peeledRef (rt_name t) ++ lf ++ remoteListing rest
         | None => remoteListing rest
         end
  end.

Definition CARET : ascii := "^"%char.

(** A tag name that fits in one field, has no caret (the tool refuses
    one in a ref name) and does not begin with the two characters
    [{}]. *)
Definition plainTagName (n : string) : bool :=
  isField n && negb (hasChar CARET n) && negb (startsWith n "{}").

Definition wellFormedRemoteTag (t : RemoteTag) : bool :=
  isField (rt_id t) && plainTagName (rt_name t)
  && match rt_peeled t with
     | Some id => isField id
     | None => true
     end.

(** A local tag whose name is not empty, and one whose object type
    holds no null byte. *)
Definition namedTag (t : string * string) : bool :=
  negb (String.eqb (fst t) "").

Definition plainObjectType (t : string * string) : bool :=
  negb (hasChar NUL (snd t)).

(** The tags the tool reports with the object type [tag]. *)
Definition isAnnotated (t : string * string) : bool :=
  String.eqb (snd t) "tag".

(** ** Branch listings as the tool prints them *)

Definition SLASH : ascii := "/"%char.

(** The short names of remote-tracking branches, one per line, each
    given by the name of its remote and the name of the branch. *)
Fixpoint branchListing (branches : list (string * string)) : string :=
  match branches with
  | [] => ""
  | (remoteName, branch) :: rest =>
      remoteName ++ "/" ++ branch ++ lf ++ branchListing rest
  end.

(** The name of the remote holds no slash and no newline, the name of
    the branch no newline. *)
Definition wellFormedBranch (b : string * string) : bool :=
  negb (hasChar SLASH (fst b)) && negb (hasChar LF (fst b))
  && negb (hasChar LF (snd b)).

(** ** More test doubles *)

Definition failingGit (e : GitError)
  : list string -> string -> string -> Promise IGitExecutionResult :=
  fun _ _ _ => reject e.

Definition failingNetworkArguments (e : GitError)
  : Repository -> option IGitAccount -> Promise (list string) :=
  fun _ _ => reject e.

Definition notARepository : GitError :=
  {| message := "fatal: not a git repository" |}.

(** An annotated tag and a lightweight tag of a remote. *)
Definition twoRemoteTags : list RemoteTag :=
  [ {| rt_id := "0a1b"; rt_name := "v1"; rt_peeled := Some "2c3d" |};
    {| rt_id := "4e5f"; rt_name := "v2"; rt_peeled := None |} ].

(** Branches of two remotes. *)
Definition twoRemotesBranches : list (string * string) :=
  [("upstream", "main"); ("origin", "release/1.0")].

(** A remote whose name continues the name of [origin]. *)
Definition originFork : IRemote :=
  {| name := "origin/fork"; url := "https://example.com/fork.git" |}.

(** ** Facts about the JavaScript primitives *)

Module JSFacts.

Lemma startsWith_app (p rest : string) : startsWith (p ++ rest) p = true.
Proof.
  induction p as [|a p IH]; simpl; [reflexivity|].
  now rewrite Ascii.eqb_refl, IH.
Qed.

Lemma drop_app (p rest : string) : drop (String.length p) (p ++ rest) = rest.
Proof. induction p as [|a p IH]; simpl; [now destruct rest | exact IH]. Qed.

Lemma startsWith_drop (s p : string) :
  startsWith s p = true -> s = p ++ drop (String.length p) s.
Proof.
  revert s; induction p as [|a p IH]; intros s H; simpl in *.
  - now destruct s.
  - destruct s as [|b s]; [discriminate|].
    apply andb_true_iff in H as [Hab Hs].
    apply Ascii.eqb_eq in Hab; subst b.
    now rewrite <- (IH s Hs).
Qed.

(** [startsWith] is the prefix relation. *)
Lemma startsWith_spec (s p : string) :
  startsWith s p = true <-> exists rest, s = p ++ rest.
Proof.
  split.
  - intros H. exists (drop (String.length p) s). now apply startsWith_drop.
  - intros [rest ->]. apply startsWith_app.
Qed.

Lemma endsWith_refl (s : string) : endsWith s s = true.
Proof. destruct s; cbn [endsWith]; now rewrite String.eqb_refl. Qed.

Lemma endsWith_cons (c : ascii) (s x : string) :
  endsWith s x = true -> endsWith (String c s) x = true.
Proof. intros H; cbn [endsWith]. rewrite H. apply orb_true_r. Qed.

Lemma endsWith_app (front s x : string) :
  endsWith s x = true -> endsWith (front ++ s) x = true.
Proof.
  intros H; induction front as [|c front IH]; [exact H|].
  apply (endsWith_cons c), IH.
Qed.

(** [endsWith] is the suffix relation. *)
Lemma endsWith_spec (s x : string) :
  endsWith s x = true <-> exists front, s = front ++ x.
Proof.
  split.
  - induction s as [|c s IH]; cbn [endsWith]; intros H.
    + rewrite orb_false_r in H. apply String.eqb_eq in H. now exists "".
    + apply orb_true_iff in H as [H|H].
      * apply String.eqb_eq in H. now exists "".
      * destruct (IH H) as [front ->]. now exists (String c front).
  - intros [front ->]. apply endsWith_app, endsWith_refl.
Qed.

Lemma endsWith_drop (n : nat) (s x : string) :
  endsWith (drop n s) x = true -> endsWith s x = true.
Proof.
  revert s; induction n as [|n IH]; intros s H.
  - now destruct s.
  - destruct s as [|c s]; [exact H|].
    apply endsWith_cons, IH, H.
Qed.

(** Removing a literal at the start never creates a suffix. *)
Lemma endsWith_replaceAtStart (lit s x : string) :
  endsWith (replaceAtStart lit s) x = true -> endsWith s x = true.
Proof.
  unfold replaceAtStart.
  destruct (startsWith s lit); [apply endsWith_drop | trivial].
Qed.

Lemma replaceAtStart_id (lit s : string) :
  startsWith s lit = false -> replaceAtStart lit s = s.
Proof. unfold replaceAtStart. now intros ->. Qed.

Lemma split_not_nil (sep : ascii) (s : string) : split sep s <> [].
Proof.
  destruct s as [|c s]; simpl; [discriminate|].
  destruct (Ascii.eqb c sep); [discriminate|].
  destruct (split sep s); discriminate.
Qed.

(** A string without the separator is a single field. *)
Lemma split_no_sep (sep : ascii) (s : string) :
  hasChar sep s = false -> split sep s = [s].
Proof.
  induction s as [|c s IH]; simpl; intros H; [reflexivity|].
  apply orb_false_iff in H as [Hc Hs].
  now rewrite Hc, (IH Hs).
Qed.

(** The first field ends at the first separator. *)
Lemma split_app_sep (sep : ascii) (s rest : string) :
  hasChar sep s = false ->
  split sep (s ++ String sep rest) = s :: split sep rest.
Proof.
  induction s as [|c s IH]; simpl; intros H.
  - now rewrite Ascii.eqb_refl.
  - apply orb_false_iff in H as [Hc Hs].
    now rewrite Hc, (IH Hs).
Qed.

(** No field contains the separator. *)
Lemma split_field_no_sep (sep : ascii) (s field : string) :
  In field (split sep s) -> hasChar sep field = false.
Proof.
  revert field; induction s as [|c s IH]; simpl; intros field H.
  - destruct H as [<-|[]]. reflexivity.
  - destruct (Ascii.eqb c sep) eqn:Hc.
    + destruct H as [<-|H]; [reflexivity | now apply IH].
    + destruct (split sep s) as [|f fs] eqn:E.
      * destruct H as [<-|[]]. simpl. now rewrite Hc.
      * destruct H as [<-|H].
        -- simpl. rewrite Hc. apply IH. now left.
        -- apply IH. now right.
Qed.

(** A field is a piece of the string: it has no character the string
    does not have. *)
Lemma split_field_chars (sep d : ascii) (s field : string) :
  In field (split sep s) -> hasChar d s = false -> hasChar d field = false.
Proof.
  revert field; induction s as [|c s IH]; simpl; intros field H Hd.
  - destruct H as [<-|[]]. reflexivity.
  - apply orb_false_iff in Hd as [Hcd Hs].
    destruct (Ascii.eqb c sep) eqn:Hc.
    + destruct H as [<-|H]; [reflexivity | now apply IH].
    + destruct (split sep s) as [|f fs] eqn:E.
      * destruct H as [<-|[]]. simpl. now rewrite Hcd.
      * destruct H as [<-|H].
        -- simpl. rewrite Hcd. apply IH; [now left | exact Hs].
        -- apply IH; [now right | exact Hs].
Qed.

(** Joining the fields with the separator gives the string back. *)
Lemma concat_split (sep : ascii) (s : string) :
  String.concat (String sep "") (split sep s) = s.
Proof.
  induction s as [|c s IH]; simpl; [reflexivity|].
  destruct (Ascii.eqb c sep) eqn:Hc.
  - apply Ascii.eqb_eq in Hc; subst c.
    destruct (split sep s) as [|f fs] eqn:E.
    + now elim (split_not_nil sep s).
    + simpl. now rewrite <- IH.
  - destruct (split sep s) as [|f fs] eqn:E.
    + now elim (split_not_nil sep s).
    + rewrite <- IH. now destruct fs.
Qed.

Lemma hasChar_app (c : ascii) (s t : string) :
  hasChar c (s ++ t) = hasChar c s || hasChar c t.
Proof.
  induction s as [|d s IH]; simpl; [reflexivity|].
  now rewrite IH, orb_assoc.
Qed.

(** Splitting distributes over a separator. *)
Lemma split_app (sep : ascii) (a b : string) :
  split sep (a ++ String sep b) = (split sep a ++ split sep b)%list.
Proof.
  induction a as [|c a IH]; simpl.
  - now rewrite Ascii.eqb_refl.
  - destruct (Ascii.eqb c sep); rewrite IH; [reflexivity|].
    destruct (split sep a) as [|f fs] eqn:E; [now elim (split_not_nil sep a)|].
    reflexivity.
Qed.

(** Splitting undoes joining: fields without the separator, joined by
    it, are the fields of the result (no field at all reads as one empty
    field). *)
Lemma split_concat (sep : ascii) (fields : list string) :
  forallb (fun f => negb (hasChar sep f)) fields = true ->
  split sep (String.concat (String sep "") fields)
  = match fields with
    | [] => [""]
    | _ => fields
    end.
Proof.
  induction fields as [|f fields IH]; [reflexivity|].
  cbn [forallb]. intros [Hf Hrest]%andb_true_iff. apply negb_true_iff in Hf.
  destruct fields as [|g fields].
  - simpl. now apply split_no_sep.
  - change (String.concat (String sep "") (f :: g :: fields))
      with (f ++ String sep (String.concat (String sep "") (g :: fields))).
    now rewrite (split_app_sep _ _ _ Hf), (IH Hrest).
Qed.

Lemma hasChar_concat (c : ascii) (sep : string) (fields : list string) :
  hasChar c sep = false ->
  forallb (fun f => negb (hasChar c f)) fields = true ->
  hasChar c (String.concat sep fields) = false.
Proof.
  intros Hsep. induction fields as [|f fields IH]; [reflexivity|].
  cbn [forallb]. intros [Hf Hrest]%andb_true_iff. apply negb_true_iff in Hf.
  destruct fields as [|g fields]; [exact Hf|].
  change (String.concat sep (f :: g :: fields))
    with (f ++ sep ++ String.concat sep (g :: fields)).
  now rewrite !hasChar_app, Hf, Hsep, (IH Hrest).
Qed.

End JSFacts.

(** ** What each operation resolves to when the runner succeeds *)

Section Runs.

Variable git : list string -> string -> string -> Promise IGitExecutionResult.
Variable gitNetworkArguments :
  Repository -> option IGitAccount -> Promise (list string).

Lemma getAllTags_resolves (repository : Repository) (r : IGitExecutionResult) :
  git ["tag"] (path repository) "getAllTags" = resolve r ->
  getAllTags git repository
  = resolve (filter (fun s => negb (String.eqb s "")) (split LF (stdout r))).
Proof. unfold getAllTags; simpl. now intros ->. Qed.

Lemma getAnnotatedTags_resolves (repository : Repository) (r : IGitExecutionResult) :
  git getAnnotatedTags_args (path repository) "getAnnotatedTags" = resolve r ->
  getAnnotatedTags git repository
  = resolve (filter (fun tag => negb (String.eqb tag ""))
               (map getAnnotatedTags_tagLine (split LF (stdout r)))).
Proof.
  intros H. unfold getAnnotatedTags. cbv zeta.
  change ["tag"; "--format=" ++ annotatedFormat] with getAnnotatedTags_args.
  now rewrite H.
Qed.

Lemma fetchRemoteTags_resolves (repository : Repository)
    (account : option IGitAccount) (remote : IRemote)
    (networkArguments : list string) (r : IGitExecutionResult) :
  gitNetworkArguments repository account = resolve networkArguments ->
  git (fetchRemoteTags_args networkArguments remote) (path repository)
    "fetchUnpushedTags" = resolve r ->
  fetchRemoteTags git gitNetworkArguments repository account remote
  = resolve (filterNotNull (map fetchRemoteTags_line (split LF (stdout r)))).
Proof.
  unfold fetchRemoteTags, fetchRemoteTags_args. intros H1 H2.
  cbn [bind Monad_Promise Monad_either]. rewrite H1.
  unfold resolve at 1. cbv zeta. now rewrite H2.
Qed.

Lemma isTagReachableByRemote_resolves (repository : Repository) (tag : string)
    (remote : IRemote) (r : IGitExecutionResult) :
  git (isTagReachableByRemote_args tag) (path repository)
    "isTagReachableByRemote" = resolve r ->
  isTagReachableByRemote git repository tag remote
  = resolve (Nat.ltb 0 (List.length
               (filter (fun line => startsWith line (name remote ++ "/"))
                  (split LF (stdout r))))).
Proof.
  unfold isTagReachableByRemote, isTagReachableByRemote_args; simpl.
  now intros ->.
Qed.

(** A rejection of the runner is the rejection of the operation. *)
Lemma getAllTags_rejects (repository : Repository) (e : GitError) :
  git ["tag"] (path repository) "getAllTags" = reject e ->
  getAllTags git repository = reject e.
Proof. unfold getAllTags; simpl. now intros ->. Qed.

End Runs.

(** ** Lines of a listing *)

Module Lines.
Import JSFacts.

Lemma append_assoc (a b c : string) : (a ++ b) ++ c = a ++ b ++ c.
Proof. induction a as [|x a IH]; simpl; [reflexivity | now rewrite IH]. Qed.

(** The first line of [sha <TAB> ref <LF> rest]. *)
Lemma split_LF_entry (sha ref rest : string) :
  hasChar LF sha = false -> hasChar LF ref = false ->
  split LF (sha ++ tab ++ ref ++ lf ++ rest)
  = (sha ++ tab ++ ref) :: split LF rest.
Proof.
  intros Hs Hr.
  replace (sha ++ tab ++ ref ++ lf ++ rest)
    with ((sha ++ tab ++ ref) ++ String LF rest)
    by (now rewrite !append_assoc).
  apply split_app_sep.
  rewrite !hasChar_app, Hs, Hr. reflexivity.
Qed.

(** The two fields of [sha <TAB> ref]. *)
Lemma split_TAB_entry (sha ref : string) :
  hasChar TAB sha = false -> hasChar TAB ref = false ->
  split TAB (sha ++ tab ++ ref) = [sha; ref].
Proof.
  intros Hs Hr. change (tab ++ ref) with (String TAB ref).
  now rewrite (split_app_sep _ _ _ Hs), (split_no_sep _ _ Hr).
Qed.

(** What [fetchRemoteTags] makes of the line [sha <TAB> ref]. *)
Lemma fetchRemoteTags_line_entry (sha ref : string) :
  hasChar TAB sha = false -> hasChar TAB ref = false ->
  fetchRemoteTags_line (sha ++ tab ++ ref)
  = if String.eqb ref "" then None
    else if endsWith ref "^{}" then None
    else Some (replaceAtStart "{}" (replaceAtStart "refs/tags/" ref)).
Proof.
  intros Hs Hr. unfold fetchRemoteTags_line.
  now rewrite (split_TAB_entry _ _ Hs Hr).
Qed.

Lemma split_LF_last_entry (sha ref : string) :
  hasChar LF sha = false -> hasChar LF ref = false ->
  split LF (sha ++ tab ++ ref ++ lf) = [sha ++ tab ++ ref; ""].
Proof.
  intros Hs Hr. change lf with (lf ++ "") at 1.
  now rewrite split_LF_entry.
Qed.

(** A name that [getAnnotatedTags] keeps is the first of at least two
    null-separated fields, the second being [tag]. *)
Lemma getAnnotatedTags_tagLine_inv (tagLine : string) :
  getAnnotatedTags_tagLine tagLine <> "" ->
  exists rest,
    split NUL tagLine = getAnnotatedTags_tagLine tagLine :: "tag" :: rest.
Proof.
  unfold getAnnotatedTags_tagLine.
  destruct (String.eqb tagLine ""); [now intros []|].
  destruct (split NUL tagLine) as [|first [|second rest]];
    [now intros [] | now intros [] |].
  destruct (String.eqb_spec second "tag") as [->|]; simpl; [|now intros []].
  intros _. now exists rest.
Qed.

(** The callback followed by the filter is the rule of
    [keptAnnotatedName]. *)
Lemma getAnnotatedTags_tagLine_kept (tagLine : string) :
  (if negb (String.eqb (getAnnotatedTags_tagLine tagLine) "")
   then [getAnnotatedTags_tagLine tagLine] else [])
  = keptAnnotatedName tagLine.
Proof.
  unfold getAnnotatedTags_tagLine, keptAnnotatedName.
  destruct (String.eqb_spec tagLine "") as [->|_]; [reflexivity|].
  destruct (split NUL tagLine) as [|first [|second rest]];
    [reflexivity | reflexivity |].
  destruct (String.eqb second "tag"); reflexivity.
Qed.

Lemma filter_map_tagLine (rawTags : list string) :
  filter (fun tag => negb (String.eqb tag ""))
    (map getAnnotatedTags_tagLine rawTags)
  = flat_map keptAnnotatedName rawTags.
Proof.
  induction rawTags as [|tagLine rawTags IH]; [reflexivity|].
  cbn [map filter flat_map]. rewrite <- getAnnotatedTags_tagLine_kept, <- IH.
  now destruct (negb _).
Qed.

(** The lines of the two listings of the same tags. *)
Lemma split_plainListing (tags : list (string * string)) :
  forallb wellFormedTag tags = true ->
  split LF (plainListing tags) = (map fst tags ++ [""])%list.
Proof.
  induction tags as [|[tagName objectType] tags IH]; [reflexivity|].
  cbn [forallb plainListing map fst app]. intros H.
  apply andb_true_iff in H as [Hw Hrest].
  unfold wellFormedTag in Hw. rewrite !andb_true_iff, !negb_true_iff in Hw.
  destruct Hw as [[Hn _] _]. cbn [fst] in Hn.
  change (lf ++ plainListing tags) with (String LF (plainListing tags)).
  now rewrite (split_app_sep _ _ _ Hn), (IH Hrest).
Qed.

Lemma split_formattedListing (tags : list (string * string)) :
  forallb wellFormedTag tags = true ->
  split LF (formattedListing tags)
  = (map (fun t => (fst t ++ nul ++ snd t)%string) tags ++ [""])%list.
Proof.
  induction tags as [|[tagName objectType] tags IH]; [reflexivity|].
  cbn [forallb formattedListing map fst snd app]. intros H.
  apply andb_true_iff in H as [Hw Hrest].
  unfold wellFormedTag in Hw. rewrite !andb_true_iff, !negb_true_iff in Hw.
  destruct Hw as [[Hn _] Ht]. cbn [fst snd] in Hn, Ht.
  replace (tagName ++ nul ++ objectType ++ lf ++ formattedListing tags)
    with ((tagName ++ nul ++ objectType) ++ String LF (formattedListing tags))
    by (now rewrite !append_assoc).
  rewrite split_app_sep, (IH Hrest); [reflexivity|].
  rewrite !hasChar_app, Hn, Ht. reflexivity.
Qed.

(** On the line of a well formed tag the callback answers the tag's
    name or the empty string. *)
Lemma getAnnotatedTags_tagLine_entry (tagName objectType : string) :
  hasChar NUL tagName = false ->
  getAnnotatedTags_tagLine (tagName ++ nul ++ objectType) = tagName
  \/ getAnnotatedTags_tagLine (tagName ++ nul ++ objectType) = "".
Proof.
  intros Hn. unfold getAnnotatedTags_tagLine.
  destruct (String.eqb _ ""); [now right|].
  change (nul ++ objectType) with (String NUL objectType).
  rewrite (split_app_sep _ _ _ Hn).
  destruct (split NUL objectType) as [|second rest] eqn:E;
    [now elim (split_not_nil NUL objectType)|].
  destruct (negb _); [now right | now left].
Qed.

(** A line gives a name exactly when it has an unpeeled ref path. *)
Lemma fetchRemoteTags_line_unpeeled (line : string) :
  match fetchRemoteTags_line line with
  | Some t => [t]
  | None => []
  end = map normalizedName (unpeeledRefPath line).
Proof.
  unfold fetchRemoteTags_line, unpeeledRefPath.
  destruct (split TAB line) as [|sha [|refPath rest]];
    [reflexivity | reflexivity |].
  destruct (String.eqb refPath ""); [reflexivity|].
  destruct (endsWith refPath "^{}"); reflexivity.
Qed.

Lemma filterNotNull_map_line (lines : list string) :
  filterNotNull (map fetchRemoteTags_line lines)
  = map normalizedName (flat_map unpeeledRefPath lines).
Proof.
  induction lines as [|line lines IH]; [reflexivity|].
  cbn [map filterNotNull flat_map].
  rewrite map_app, <- fetchRemoteTags_line_unpeeled, <- IH.
  now destruct (fetchRemoteTags_line line).
Qed.

Lemma unpeeledRefPath_inv (line refPath : string) :
  In refPath (unpeeledRefPath line) ->
  refPath <> "" /\ endsWith refPath "^{}" = false
  /\ exists sha rest, split TAB line = sha :: refPath :: rest.
Proof.
  unfold unpeeledRefPath.
  destruct (split TAB line) as [|sha [|second rest]]; [now intros [] ..|].
  destruct (String.eqb_spec second "") as [->|Hne]; [now intros []|].
  destruct (endsWith second "^{}") eqn:E; [now intros []|].
  intros [<-|[]]. repeat split; [exact Hne | exact E | now exists sha, rest].
Qed.

(** The two replacements leave the end of the ref path alone. *)
Lemma normalizedName_no_suffix (refPath : string) :
  endsWith refPath "^{}" = false ->
  endsWith (normalizedName refPath) "^{}" = false.
Proof.
  intros H. destruct (endsWith (normalizedName refPath) "^{}") eqn:E;
    [|reflexivity].
  unfold normalizedName in E.
  do 2 apply endsWith_replaceAtStart in E.
  congruence.
Qed.

(** On a plain tag ref the name is what follows [refs/tags/]. *)
Lemma normalizedName_plainTagRef (refPath : string) :
  plainTagRef refPath = true ->
  refPath = "refs/tags/" ++ normalizedName refPath.
Proof.
  unfold plainTagRef, normalizedName. intros H.
  apply andb_true_iff in H as [Hp Hb]. apply negb_true_iff in Hb.
  pose proof (startsWith_drop _ _ Hp) as E.
  unfold replaceAtStart at 2. rewrite Hp.
  now rewrite (replaceAtStart_id _ _ Hb).
Qed.

Lemma normalizedName_inj (f g : string) :
  plainTagRef f = true -> plainTagRef g = true ->
  normalizedName f = normalizedName g -> f = g.
Proof.
  intros Hf Hg E.
  rewrite (normalizedName_plainTagRef _ Hf), (normalizedName_plainTagRef _ Hg).
  now rewrite E.
Qed.

Lemma startsWith_app_app (p s q : string) :
  startsWith (p ++ s) (p ++ q) = startsWith s q.
Proof.
  induction p as [|a p IH]; [reflexivity|].
  simpl. now rewrite Ascii.eqb_refl, IH.
Qed.

End Lines.

(** ** The lines and fields of a text *)

Module LinesOfText.
Import JSFacts Lines.

Lemma append_nil_r (a : string) : a ++ "" = a.
Proof. induction a as [|c a IH]; simpl; [reflexivity | now rewrite IH]. Qed.

(** A joined list cut at one of its elements. *)
Lemma concat_middle (sep : string) (l1 l2 : list string) (x : string) :
  String.concat sep (l1 ++ x :: l2)
  = match l1 with
    | [] => ""
    | _ => String.concat sep l1 ++ sep
    end
    ++ x
    ++ match l2 with
       | [] => ""
       | _ => sep ++ String.concat sep l2
       end.
Proof.
  induction l1 as [|y l1 IH].
  - destruct l2; simpl; [now rewrite append_nil_r | reflexivity].
  - change ((y :: l1) ++ x :: l2)%list with (y :: (l1 ++ x :: l2))%list.
    destruct l1 as [|z l1].
    + change (String.concat sep (y :: [] ++ x :: l2))
        with (y ++ sep ++ String.concat sep ([] ++ x :: l2)).
      rewrite IH. change (String.concat sep [y]) with y.
      now rewrite !append_assoc.
    + change (String.concat sep (y :: (z :: l1) ++ x :: l2))
        with (y ++ sep ++ String.concat sep ((z :: l1) ++ x :: l2)).
      rewrite IH.
      change (String.concat sep (y :: z :: l1))
        with (y ++ sep ++ String.concat sep (z :: l1)).
      now rewrite !append_assoc.
Qed.

(** The elements of [split LF out] are the lines of [out]. *)
Lemma In_split_LF_iff (line out : string) :
  In line (split LF out) <-> isLineOf line out.
Proof.
  split.
  - intros Hin. split; [eapply split_field_no_sep, Hin|].
    destruct (in_split _ _ Hin) as (l1 & l2 & E).
    pose proof (concat_split LF out) as Hout. rewrite E, concat_middle in Hout.
    eexists _, _. split; [symmetry; exact Hout|]. split.
    + destruct l1; [now left | right; now eexists].
    + destruct l2; [now left | right; now eexists].
  - intros (Hline & before & after & -> & Hbefore & Hafter).
    assert (Htail : In line (split LF (line ++ after))).
    { destruct Hafter as [->|[q ->]].
      - rewrite append_nil_r, (split_no_sep _ _ Hline). now left.
      - change (lf ++ q) with (String LF q).
        rewrite (split_app_sep _ _ _ Hline). now left. }
    destruct Hbefore as [->|[p ->]]; [exact Htail|].
    rewrite append_assoc. change (lf ++ line ++ after)
      with (String LF (line ++ after)).
    rewrite split_app. apply in_or_app. now right.
Qed.

Lemma isField_fields (fields : list string) :
  forallb isField fields = true ->
  forallb (fun f => negb (hasChar TAB f)) fields = true
  /\ forallb (fun f => negb (hasChar LF f)) fields = true.
Proof.
  induction fields as [|f fields IH]; [now split|].
  cbn [forallb]. intros [Hf Hrest]%andb_true_iff.
  unfold isField in Hf. apply andb_true_iff in Hf as [Ht Hl].
  destruct (IH Hrest) as [IHt IHl]. now rewrite Ht, Hl, IHt, IHl.
Qed.

(** On a line written from its fields, the ref path the parser keeps is
    the one read off the fields. *)
Lemma unpeeledRefPath_joinFields (fields : list string) :
  forallb isField fields = true ->
  unpeeledRefPath (joinFields fields) = keptRefPath fields.
Proof.
  intros [Ht _]%isField_fields. unfold unpeeledRefPath, joinFields.
  change tab with (String TAB ""). rewrite (split_concat _ _ Ht).
  now destruct fields.
Qed.

Lemma hasChar_LF_joinFields (fields : list string) :
  forallb isField fields = true -> hasChar LF (joinFields fields) = false.
Proof.
  intros [_ Hl]%isField_fields. now apply hasChar_concat.
Qed.

Lemma unpeeledRefPaths_joinLines (lines : list (list string)) :
  forallb (forallb isField) lines = true ->
  unpeeledRefPaths (joinLines (map joinFields lines))
  = flat_map keptRefPath lines.
Proof.
  intros Hw. unfold unpeeledRefPaths, joinLines.
  change lf with (String LF ""). rewrite split_concat.
  - destruct lines as [|fields lines]; [reflexivity|].
    change (match map joinFields (fields :: lines) with
            | [] => [""]
            | _ :: _ => map joinFields (fields :: lines)
            end) with (map joinFields (fields :: lines)).
    induction (fields :: lines) as [|fs ls IH]; [reflexivity|].
    cbn [forallb] in Hw. apply andb_true_iff in Hw as [Hfs Hls].
    cbn [map flat_map]. now rewrite (unpeeledRefPath_joinFields _ Hfs), (IH Hls).
  - rewrite forallb_forall in Hw. apply forallb_forall.
    intros l (fields & <- & Hin)%in_map_iff.
    apply negb_true_iff, hasChar_LF_joinFields, Hw, Hin.
Qed.

(** Every text is lines of fields. *)
Lemma text_is_lines_of_fields (out : string) :
  exists lines,
    forallb (forallb isField) lines = true
    /\ out = joinLines (map joinFields lines).
Proof.
  exists (map (split TAB) (split LF out)). split.
  - apply forallb_forall. intros fields (line & <- & Hline)%in_map_iff.
    apply forallb_forall. intros f Hf. unfold isField.
    rewrite (split_field_no_sep _ _ _ Hf).
    rewrite (split_field_chars TAB LF line f Hf); [reflexivity|].
    eapply split_field_no_sep, Hline.
  - rewrite map_map. unfold joinFields, joinLines.
    rewrite (map_ext _ (fun line => line)), map_id.
    + symmetry. apply (concat_split LF).
    + intros line. apply (concat_split TAB).
Qed.

End LinesOfText.

(** ** Properties of the operations *)

Section Properties.
Import JSFacts Lines LinesOfText.

Variable git : list string -> string -> string -> Promise IGitExecutionResult.
Variable gitNetworkArguments :
  Repository -> option IGitAccount -> Promise (list string).

Lemma isField_split (s : string) :
  isField s = true -> hasChar TAB s = false /\ hasChar LF s = false.
Proof.
  unfold isField. intros H. apply andb_true_iff in H as [H1 H2].
  now apply negb_true_iff in H1, H2.
Qed.

(** C8.  When the runner prints nothing, the three listings resolve to
    the empty sequence and the reachability check to [false]; none of
    them is rejected. *)
Theorem C8_empty_output_empty_result
    (repository : Repository) (account : option IGitAccount) (remote : IRemote)
    (tag : string) (networkArguments : list string) (r : IGitExecutionResult) :
  stdout r = "" ->
  (git ["tag"] (path repository) "getAllTags" = resolve r ->
   getAllTags git repository = resolve [])
  /\ (git getAnnotatedTags_args (path repository) "getAnnotatedTags" = resolve r ->
      getAnnotatedTags git repository = resolve [])
  /\ (gitNetworkArguments repository account = resolve networkArguments ->
      git (fetchRemoteTags_args networkArguments remote) (path repository)
        "fetchUnpushedTags" = resolve r ->
      fetchRemoteTags git gitNetworkArguments repository account remote
      = resolve [])
  /\ (git (isTagReachableByRemote_args tag) (path repository)
        "isTagReachableByRemote" = resolve r ->
      isTagReachableByRemote git repository tag remote = resolve false).
Proof.
  intros Hout. repeat split.
  - intros H. rewrite (getAllTags_resolves _ _ _ H), Hout. reflexivity.
  - intros H. rewrite (getAnnotatedTags_resolves _ _ _ H), Hout. reflexivity.
  - intros Hn H.
    rewrite (fetchRemoteTags_resolves _ _ _ _ _ _ _ Hn H), Hout. reflexivity.
  - intros H. rewrite (isTagReachableByRemote_resolves _ _ _ _ _ H), Hout.
    simpl. now destruct (name remote).
Qed.

(** C2.  On the listing [sha1 TAB refs/tags/v1 LF sha2 TAB
    refs/tags/v1^{} LF sha3 TAB refs/tags/v2 LF], whatever the three
    object ids are, [fetchRemoteTags] resolves to exactly [v1; v2]:
    the peeled line is dropped, the lightweight tag is kept. *)
Theorem C2_fetchRemoteTags_peeled_duplicate_suppressed
    (repository : Repository) (account : option IGitAccount) (remote : IRemote)
    (networkArguments : list string) (r : IGitExecutionResult)
    (sha1 sha2 sha3 : string) :
  isField sha1 = true -> isField sha2 = true -> isField sha3 = true ->
  stdout r = sha1 ++ tab ++ "refs/tags/v1" ++ lf
             ++ sha2 ++ tab ++ "refs/tags/v1^{}" ++ lf
             ++ sha3 ++ tab ++ "refs/tags/v2" ++ lf ->
  gitNetworkArguments repository account = resolve networkArguments ->
  git (fetchRemoteTags_args networkArguments remote) (path repository)
    "fetchUnpushedTags" = resolve r ->
  fetchRemoteTags git gitNetworkArguments repository account remote
  = resolve ["v1"; "v2"].
Proof.
  intros [T1 L1]%isField_split [T2 L2]%isField_split [T3 L3]%isField_split
    Hout Hn H.
  rewrite (fetchRemoteTags_resolves _ _ _ _ _ _ _ Hn H), Hout.
  rewrite !split_LF_entry, split_LF_last_entry by (assumption || reflexivity).
  cbn [map]. rewrite !fetchRemoteTags_line_entry by (assumption || reflexivity).
  reflexivity.
Qed.

(** C6.  [isTagReachableByRemote] resolves to [true] exactly when some
    newline-separated line of the runner output is the remote's name, a
    slash, and anything after it, wherever the line stands in the
    output; so [true] for [origin] on the two branches [origin/main],
    [upstream/main] in either order, and [false] on [upstream/main]
    alone. *)
Theorem C6_isTagReachableByRemote_iff_line_of_remote
    (repository : Repository) (tag : string) (remote : IRemote)
    (r : IGitExecutionResult) :
  git (isTagReachableByRemote_args tag) (path repository)
    "isTagReachableByRemote" = resolve r ->
  exists b : bool,
    isTagReachableByRemote git repository tag remote = resolve b
    /\ (b = true <->
        exists line rest,
          isLineOf line (stdout r) /\ line = name remote ++ "/" ++ rest)
    /\ (name remote = "origin" ->
        stdout r = "origin/main" ++ lf ++ "upstream/main" ++ lf -> b = true)
    /\ (name remote = "origin" ->
        stdout r = "upstream/main" ++ lf -> b = false)
    /\ (name remote = "origin" ->
        stdout r = "upstream/main" ++ lf ++ "origin/main" ++ lf -> b = true).
Proof.
  intros H. rewrite (isTagReachableByRemote_resolves _ _ _ _ _ H).
  eexists; split; [reflexivity|]. split; [|split; [|split]].
  - rewrite Nat.ltb_lt. split.
    + intros Hlen.
      destruct (filter _ _) as [|line ls] eqn:E; [simpl in Hlen; lia|].
      assert (Hin : In line (line :: ls)) by now left.
      rewrite <- E in Hin. apply filter_In in Hin as [Hin Hp].
      apply startsWith_spec in Hp as [rest Hp].
      exists line, rest. split; [now apply In_split_LF_iff|].
      now rewrite Hp, append_assoc.
    + intros (line & rest & Hin%In_split_LF_iff & ->).
      assert (Hf : In (name remote ++ "/" ++ rest)
                     (filter (fun line => startsWith line (name remote ++ "/"))
                        (split LF (stdout r)))).
      { apply filter_In. split; [exact Hin|].
        rewrite <- append_assoc. apply startsWith_app. }
      destruct (filter _ _); [destruct Hf | simpl; lia].
  - intros -> ->. reflexivity.
  - intros -> ->. reflexivity.
  - intros -> ->. reflexivity.
Qed.

(** C10.  A line whose ref path is exactly [refs/tags/] is kept (the
    field is not empty and is not a peeled entry) and its name, once
    the prefix is removed, is the empty string: on such a listing
    [fetchRemoteTags] resolves to a sequence that holds the empty
    name. *)
Theorem C10_fetchRemoteTags_can_return_empty_name
    (repository : Repository) (account : option IGitAccount) (remote : IRemote)
    (networkArguments : list string) (r : IGitExecutionResult) (sha : string) :
  isField sha = true ->
  stdout r = sha ++ tab ++ "refs/tags/" ++ lf ->
  gitNetworkArguments repository account = resolve networkArguments ->
  git (fetchRemoteTags_args networkArguments remote) (path repository)
    "fetchUnpushedTags" = resolve r ->
  fetchRemoteTags_line (sha ++ tab ++ "refs/tags/") = Some ""
  /\ exists tags,
      fetchRemoteTags git gitNetworkArguments repository account remote
      = resolve tags
      /\ In "" tags.
Proof.
  intros [T L]%isField_split Hout Hn H.
  assert (Hline : fetchRemoteTags_line (sha ++ tab ++ "refs/tags/") = Some "")
    by now rewrite fetchRemoteTags_line_entry.
  split; [exact Hline|].
  rewrite (fetchRemoteTags_resolves _ _ _ _ _ _ _ Hn H), Hout.
  rewrite split_LF_last_entry by (assumption || reflexivity).
  cbn [map]. rewrite Hline.
  eexists; split; [reflexivity | now left].
Qed.

(** C9.  Every name the two local listings resolve to is a non-empty
    string without a newline, whatever the runner printed. *)
Theorem C9_local_names_nonempty_without_newline
    (repository : Repository) (r : IGitExecutionResult) :
  (git ["tag"] (path repository) "getAllTags" = resolve r ->
   exists tags,
     getAllTags git repository = resolve tags
     /\ forall t, In t tags -> t <> "" /\ hasChar LF t = false)
  /\ (git getAnnotatedTags_args (path repository) "getAnnotatedTags" = resolve r ->
      exists tags,
        getAnnotatedTags git repository = resolve tags
        /\ forall t, In t tags -> t <> "" /\ hasChar LF t = false).
Proof.
  split; intros H.
  - rewrite (getAllTags_resolves _ _ _ H).
    eexists; split; [reflexivity|]. intros t [Hin Hne]%filter_In.
    split.
    + intros ->. discriminate.
    + eapply split_field_no_sep, Hin.
  - rewrite (getAnnotatedTags_resolves _ _ _ H).
    eexists; split; [reflexivity|]. intros t [Hin Hne]%filter_In.
    apply in_map_iff in Hin as (tagLine & <- & Hline).
    assert (Hne' : getAnnotatedTags_tagLine tagLine <> "").
    { intros E. rewrite E in Hne. discriminate. }
    split; [exact Hne'|].
    destruct (getAnnotatedTags_tagLine_inv _ Hne') as [rest Hsplit].
    apply (split_field_chars NUL LF tagLine).
    + rewrite Hsplit. now left.
    + eapply split_field_no_sep, Hline.
Qed.

(** C5 (amended).  [getAnnotatedTags] splits each line of the runner
    output on the null byte and keeps the first field exactly when
    the second field is literally [tag] and the first field is not
    empty; all other lines are dropped.  On the two lines [v1 NUL
    tag], [v2 NUL commit] it resolves to exactly [v1]. *)
Theorem C5_getAnnotatedTags_keeps_named_tag_lines
    (repository : Repository) (r : IGitExecutionResult) :
  git getAnnotatedTags_args (path repository) "getAnnotatedTags" = resolve r ->
  getAnnotatedTags git repository
  = resolve (flat_map keptAnnotatedName (split LF (stdout r)))
  /\ (stdout r = "v1" ++ nul ++ "tag" ++ lf ++ "v2" ++ nul ++ "commit" ++ lf ->
      getAnnotatedTags git repository = resolve ["v1"]).
Proof.
  intros H. rewrite (getAnnotatedTags_resolves _ _ _ H), filter_map_tagLine.
  split; [reflexivity|]. now intros ->.
Qed.

(** C7.  When the plain and the formatted listing describe the same
    well formed tags, every name [getAnnotatedTags] resolves to is
    among the names [getAllTags] resolves to. *)
Theorem C7_annotated_tags_among_all_tags
    (tags : list (string * string)) (repository : Repository)
    (rAll rAnnotated : IGitExecutionResult) :
  forallb wellFormedTag tags = true ->
  stdout rAll = plainListing tags ->
  stdout rAnnotated = formattedListing tags ->
  git ["tag"] (path repository) "getAllTags" = resolve rAll ->
  git getAnnotatedTags_args (path repository) "getAnnotatedTags"
  = resolve rAnnotated ->
  exists allTags annotatedTags,
    getAllTags git repository = resolve allTags
    /\ getAnnotatedTags git repository = resolve annotatedTags
    /\ forall t, In t annotatedTags -> In t allTags.
Proof.
  intros Hw HoutAll HoutAnn HAll HAnn.
  rewrite (getAllTags_resolves _ _ _ HAll), HoutAll.
  rewrite (getAnnotatedTags_resolves _ _ _ HAnn), HoutAnn.
  rewrite (split_plainListing _ Hw), (split_formattedListing _ Hw).
  do 2 eexists; split; [reflexivity|]; split; [reflexivity|].
  intros t [Hin Hne]%filter_In. apply filter_In. split; [|exact Hne].
  apply in_map_iff in Hin as (tagLine & Ht & Hline).
  apply in_app_iff. apply in_app_iff in Hline as [Hline|[<-|[]]].
  - left. apply in_map_iff in Hline as ([tagName objectType] & <- & Hin).
    cbn [fst snd] in Ht.
    rewrite forallb_forall in Hw. specialize (Hw _ Hin).
    unfold wellFormedTag in Hw. rewrite !andb_true_iff, !negb_true_iff in Hw.
    destruct Hw as [[_ Hnul] _]. cbn [fst] in Hnul.
    destruct (getAnnotatedTags_tagLine_entry tagName objectType Hnul) as [E|E];
      rewrite E in Ht; subst t.
    + apply in_map_iff. now exists (tagName, objectType).
    + discriminate.
  - subst t. discriminate.
Qed.

(** C1 (amended).  No name [fetchRemoteTags] resolves to ends with
    [^{}]; each is made from an unpeeled ref path of the output, and
    when that ref path is [refs/tags/<name>] (with [<name>] not
    beginning with [{}]) the returned name is [<name>], so it starts
    with [refs/tags/] only if the ref path carries the prefix twice.
    The local listings strip nothing: a name of [getAllTags] is a line
    of the output, a name of [getAnnotatedTags] is the first
    null-separated field of a line whose second field is [tag]. *)
Theorem C1_returned_names_normalized_once
    (repository : Repository) (account : option IGitAccount) (remote : IRemote)
    (networkArguments : list string) (r : IGitExecutionResult) :
  (gitNetworkArguments repository account = resolve networkArguments ->
   git (fetchRemoteTags_args networkArguments remote) (path repository)
     "fetchUnpushedTags" = resolve r ->
   exists tags,
     fetchRemoteTags git gitNetworkArguments repository account remote
     = resolve tags
     /\ forall t, In t tags ->
          endsWith t "^{}" = false
          /\ exists refPath,
              In refPath (unpeeledRefPaths (stdout r))
              /\ t = normalizedName refPath
              /\ (plainTagRef refPath = true -> refPath = "refs/tags/" ++ t)
              /\ (plainTagRef refPath = true ->
                  startsWith refPath "refs/tags/refs/tags/" = false ->
                  startsWith t "refs/tags/" = false))
  /\ (git ["tag"] (path repository) "getAllTags" = resolve r ->
      exists tags,
        getAllTags git repository = resolve tags
        /\ forall t, In t tags -> In t (split LF (stdout r)))
  /\ (git getAnnotatedTags_args (path repository) "getAnnotatedTags" = resolve r ->
      exists tags,
        getAnnotatedTags git repository = resolve tags
        /\ forall t, In t tags ->
             exists line rest,
               In line (split LF (stdout r))
               /\ split NUL line = t :: "tag" :: rest).
Proof.
  split; [|split].
  - intros Hn H.
    rewrite (fetchRemoteTags_resolves _ _ _ _ _ _ _ Hn H), filterNotNull_map_line.
    eexists; split; [reflexivity|].
    intros t (refPath & <- & Hin)%in_map_iff.
    assert (Hs : endsWith refPath "^{}" = false).
    { apply in_flat_map in Hin as (line & _ & Hline).
      now apply unpeeledRefPath_inv in Hline. }
    split; [now apply normalizedName_no_suffix|].
    exists refPath. repeat split; try assumption.
    + apply normalizedName_plainTagRef.
    + intros Hp Hd. rewrite (normalizedName_plainTagRef _ Hp) in Hd.
      change "refs/tags/refs/tags/" with ("refs/tags/" ++ "refs/tags/") in Hd.
      now rewrite startsWith_app_app in Hd.
  - intros H. rewrite (getAllTags_resolves _ _ _ H).
    eexists; split; [reflexivity|]. now intros t [Hin _]%filter_In.
  - intros H. rewrite (getAnnotatedTags_resolves _ _ _ H).
    eexists; split; [reflexivity|]. intros t [Hin Hne]%filter_In.
    apply in_map_iff in Hin as (tagLine & <- & Hline).
    assert (Hne' : getAnnotatedTags_tagLine tagLine <> "").
    { intros E. rewrite E in Hne. discriminate. }
    destruct (getAnnotatedTags_tagLine_inv _ Hne') as [rest Hsplit].
    now exists tagLine, rest.
Qed.

(** C4 (amended).  Whatever the runner printed, [fetchRemoteTags]
    resolves to one name per kept line of the output, in order: a line
    is kept when its second tab-separated field is present, not empty
    and not a peeled [^{}] entry, the peeled lines add nothing, and
    nothing else is collapsed (two kept lines with the same ref path
    give the name twice).  When the ref paths of the kept lines are
    [refs/tags/<name>] with [<name>] not beginning with [{}], the names
    are those [<name>], and they are pairwise distinct when the ref
    paths are. *)
Theorem C4_fetchRemoteTags_one_name_per_kept_line
    (repository : Repository) (account : option IGitAccount) (remote : IRemote)
    (networkArguments : list string) (r : IGitExecutionResult) :
  gitNetworkArguments repository account = resolve networkArguments ->
  git (fetchRemoteTags_args networkArguments remote) (path repository)
    "fetchUnpushedTags" = resolve r ->
  exists tags,
    fetchRemoteTags git gitNetworkArguments repository account remote
    = resolve tags
    /\ (exists lines,
          forallb (forallb isField) lines = true
          /\ stdout r = joinLines (map joinFields lines))
    /\ forall lines,
         forallb (forallb isField) lines = true ->
         stdout r = joinLines (map joinFields lines) ->
         tags = map normalizedName (flat_map keptRefPath lines)
         /\ List.length tags = List.length (flat_map keptRefPath lines)
         /\ (forallb plainTagRef (flat_map keptRefPath lines) = true ->
             map (fun t => "refs/tags/" ++ t) tags = flat_map keptRefPath lines)
         /\ (forallb plainTagRef (flat_map keptRefPath lines) = true ->
             NoDup (flat_map keptRefPath lines) -> NoDup tags).
Proof.
  intros Hn H.
  rewrite (fetchRemoteTags_resolves _ _ _ _ _ _ _ Hn H), filterNotNull_map_line.
  eexists; split; [reflexivity|]. split; [apply text_is_lines_of_fields|].
  intros lines Hw Hout. fold (unpeeledRefPaths (stdout r)).
  rewrite Hout, (unpeeledRefPaths_joinLines _ Hw).
  split; [reflexivity|]. split; [apply length_map|]. split.
  - intros Hplain. rewrite map_map. rewrite forallb_forall in Hplain.
    rewrite (map_ext_in _ (fun refPath => refPath)); [apply map_id|].
    intros refPath Hin. symmetry.
    apply normalizedName_plainTagRef, Hplain, Hin.
  - intros Hplain Hnd. apply NoDup_map_NoDup_ForallPairs; [|exact Hnd].
    rewrite forallb_forall in Hplain.
    intros f g Hf Hg. apply normalizedName_inj; now apply Hplain.
Qed.

End Properties.

(** ** Runs on canned listings *)

(** C3.  The code at a ref path that begins with [^{}]: the name it
    returns still begins with [^{}], with or without [refs/tags/] in
    front; what the second replacement removes is a leading [{}]. *)
Theorem C3_leading_caret_braces_not_removed :
  fetchRemoteTags (cannedGit ("0a1b" ++ tab ++ "^{}v1" ++ lf))
    noNetworkArguments someRepository None origin
  = resolve ["^{}v1"]
  /\ startsWith "^{}v1" "^{}" = true
  /\ fetchRemoteTags_line ("0a1b" ++ tab ++ "refs/tags/^{}v1") = Some "^{}v1"
  /\ fetchRemoteTags_line ("0a1b" ++ tab ++ "refs/tags/{}v1") = Some "v1".
Proof. repeat split; reflexivity. Qed.

(** C1 fails as stated: [getAllTags] hands back a line that starts with
    [refs/tags/] and ends with [^{}] as it is, and [fetchRemoteTags]
    strips only the first of two [refs/tags/]. *)
Lemma C1_counterexample :
  (getAllTags (cannedGit ("refs/tags/v1^{}" ++ lf)) someRepository
   = resolve ["refs/tags/v1^{}"]
   /\ startsWith "refs/tags/v1^{}" "refs/tags/" = true
   /\ endsWith "refs/tags/v1^{}" "^{}" = true)
  /\ (fetchRemoteTags (cannedGit ("0a1b" ++ tab ++ "refs/tags/refs/tags/v1" ++ lf))
        noNetworkArguments someRepository None origin
      = resolve ["refs/tags/v1"]
      /\ startsWith "refs/tags/v1" "refs/tags/" = true).
Proof. repeat split; reflexivity. Qed.

(** C4 fails as stated: two unpeeled lines with the same ref path give
    the same name twice. *)
Lemma C4_counterexample :
  fetchRemoteTags
    (cannedGit ("0a1b" ++ tab ++ "refs/tags/v1" ++ lf
                ++ "2c3d" ++ tab ++ "refs/tags/v1" ++ lf))
    noNetworkArguments someRepository None origin
  = resolve ["v1"; "v1"]
  /\ ~ NoDup ["v1"; "v1"].
Proof.
  split; [reflexivity|].
  intros H. inversion H as [|x l Hnotin _]. apply Hnotin. now left.
Qed.

(** C5 fails as stated: on the line [NUL tag] the second field is
    literally [tag], the rule as worded keeps the first field (the empty
    name), and the code drops the line. *)
Lemma C5_counterexample :
  getAnnotatedTags (cannedGit (nul ++ "tag" ++ lf)) someRepository = resolve []
  /\ split NUL (nul ++ "tag") = [""; "tag"]
  /\ flat_map keptAnnotatedName_as_stated (split LF (nul ++ "tag" ++ lf)) = [""]
  /\ ~ (forall repository r,
         getAnnotatedTags (cannedGit (stdout r)) repository
         = resolve (flat_map keptAnnotatedName_as_stated (split LF (stdout r)))).
Proof.
  repeat split; try reflexivity.
  intros H. specialize (H someRepository {| stdout := nul ++ "tag" ++ lf |}).
  discriminate H.
Qed.

(** *** The theorems at concrete runner outputs *)

Lemma C1_witness :
  exists tags,
    fetchRemoteTags (cannedGit peeledListing) noNetworkArguments someRepository
      None origin = resolve tags
    /\ forall t, In t tags ->
         endsWith t "^{}" = false /\ startsWith t "refs/tags/" = false.
Proof.
  destruct (C1_returned_names_normalized_once (cannedGit peeledListing)
              noNetworkArguments someRepository None origin []
              {| stdout := peeledListing |}) as [Hremote _].
  destruct (Hremote eq_refl eq_refl) as (tags & Hrun & Hnames).
  exists tags. split; [exact Hrun|].
  intros t Hin. destruct (Hnames t Hin) as (Hs & refPath & Href & _ & _ & Hp).
  split; [exact Hs|].
  vm_compute in Href.
  destruct Href as [<-|[<-|[]]]; apply Hp; reflexivity.
Defined.

Lemma C2_witness :
  fetchRemoteTags (cannedGit peeledListing) noNetworkArguments someRepository
    None origin = resolve ["v1"; "v2"].
Proof.
  apply (C2_fetchRemoteTags_peeled_duplicate_suppressed
           (cannedGit peeledListing) noNetworkArguments someRepository None origin
           [] {| stdout := peeledListing |} "<sha1>" "<sha2>" "<sha3>");
    reflexivity.
Defined.

Lemma C4_witness :
  exists tags,
    fetchRemoteTags (cannedGit peeledListing) noNetworkArguments someRepository
      None origin = resolve tags
    /\ tags = ["v1"; "v2"] /\ NoDup tags.
Proof.
  destruct (C4_fetchRemoteTags_one_name_per_kept_line
              (cannedGit peeledListing) noNetworkArguments someRepository None
              origin [] {| stdout := peeledListing |} eq_refl eq_refl)
    as (tags & Hrun & _ & Hlines).
  destruct (Hlines peeledLines eq_refl eq_refl) as (Htags & _ & _ & Hnd).
  exists tags. split; [exact Hrun|]. split; [exact Htags|].
  apply Hnd; [reflexivity|].
  vm_compute. repeat constructor; simpl; intuition discriminate.
Defined.

Lemma C5_witness :
  getAnnotatedTags
    (cannedGit ("v1" ++ nul ++ "tag" ++ lf ++ "v2" ++ nul ++ "commit" ++ lf))
    someRepository = resolve ["v1"].
Proof.
  apply (C5_getAnnotatedTags_keeps_named_tag_lines
           (cannedGit ("v1" ++ nul ++ "tag" ++ lf ++ "v2" ++ nul ++ "commit" ++ lf))
           someRepository
           {| stdout := "v1" ++ nul ++ "tag" ++ lf ++ "v2" ++ nul ++ "commit" ++ lf |});
    reflexivity.
Defined.

Lemma C6_witness :
  isTagReachableByRemote
    (cannedGit ("origin/main" ++ lf ++ "upstream/main" ++ lf))
    someRepository "v1" origin = resolve true
  /\ isTagReachableByRemote (cannedGit ("upstream/main" ++ lf))
       someRepository "v1" origin = resolve false
  /\ isTagReachableByRemote
       (cannedGit ("upstream/main" ++ lf ++ "origin/main" ++ lf))
       someRepository "v1" origin = resolve true.
Proof.
  split; [|split].
  - destruct (C6_isTagReachableByRemote_iff_line_of_remote
                (cannedGit ("origin/main" ++ lf ++ "upstream/main" ++ lf))
                someRepository "v1" origin
                {| stdout := "origin/main" ++ lf ++ "upstream/main" ++ lf |}
                eq_refl) as (b & Hrun & _ & Htrue & _).
    now rewrite Hrun, (Htrue eq_refl eq_refl).
  - destruct (C6_isTagReachableByRemote_iff_line_of_remote
                (cannedGit ("upstream/main" ++ lf))
                someRepository "v1" origin
                {| stdout := "upstream/main" ++ lf |}
                eq_refl) as (b & Hrun & _ & _ & Hfalse & _).
    now rewrite Hrun, (Hfalse eq_refl eq_refl).
  - destruct (C6_isTagReachableByRemote_iff_line_of_remote
                (cannedGit ("upstream/main" ++ lf ++ "origin/main" ++ lf))
                someRepository "v1" origin
                {| stdout := "upstream/main" ++ lf ++ "origin/main" ++ lf |}
                eq_refl) as (b & Hrun & Hiff & _).
    rewrite Hrun. f_equal. apply Hiff.
    exists "origin/main", "main". split; [|reflexivity].
    split; [reflexivity|].
    exists ("upstream/main" ++ lf), lf. split; [reflexivity|].
    split; right; [now exists "upstream/main" | now exists ""].
Defined.

Lemma C7_witness :
  exists allTags annotatedTags,
    getAllTags (localTagsGit threeTags) someRepository = resolve allTags
    /\ getAnnotatedTags (localTagsGit threeTags) someRepository
       = resolve annotatedTags
    /\ forall t, In t annotatedTags -> In t allTags.
Proof.
  apply (C7_annotated_tags_among_all_tags (localTagsGit threeTags)
           threeTags someRepository
           {| stdout := plainListing threeTags |}
           {| stdout := formattedListing threeTags |});
    reflexivity.
Defined.

Lemma C8_witness :
  getAllTags (cannedGit "") someRepository = resolve []
  /\ getAnnotatedTags (cannedGit "") someRepository = resolve []
  /\ fetchRemoteTags (cannedGit "") noNetworkArguments someRepository None origin
     = resolve []
  /\ isTagReachableByRemote (cannedGit "") someRepository "v1" origin
     = resolve false.
Proof.
  destruct (C8_empty_output_empty_result (cannedGit "") noNetworkArguments
              someRepository None origin "v1" [] {| stdout := "" |} eq_refl)
    as (Hall & Hannotated & Hremote & Hreach).
  split; [apply Hall; reflexivity|].
  split; [apply Hannotated; reflexivity|].
  split; [apply Hremote; reflexivity | apply Hreach; reflexivity].
Defined.

Lemma C9_witness :
  exists tags,
    getAllTags (cannedGit (plainListing threeTags)) someRepository = resolve tags
    /\ forall t, In t tags -> t <> "" /\ hasChar LF t = false.
Proof.
  apply (C9_local_names_nonempty_without_newline
           (cannedGit (plainListing threeTags)) someRepository
           {| stdout := plainListing threeTags |}).
  reflexivity.
Defined.

Lemma C10_witness :
  exists tags,
    fetchRemoteTags (cannedGit ("0a1b" ++ tab ++ "refs/tags/" ++ lf))
      noNetworkArguments someRepository None origin = resolve tags
    /\ In "" tags.
Proof.
  apply (C10_fetchRemoteTags_can_return_empty_name
           (cannedGit ("0a1b" ++ tab ++ "refs/tags/" ++ lf)) noNetworkArguments
           someRepository None origin []
           {| stdout := "0a1b" ++ tab ++ "refs/tags/" ++ lf |} "0a1b");
    reflexivity.
Defined.

(** ** Further facts about the primitives and the callbacks *)

Module MoreFacts.
Import JSFacts Lines.

Lemma hasChar_drop (c : ascii) (n : nat) (s : string) :
  hasChar c s = false -> hasChar c (drop n s) = false.
Proof.
  revert s; induction n as [|n IH]; intros s H; [now destruct s|].
  destruct s as [|d s]; [reflexivity|].
  simpl in H. apply orb_false_iff in H as [_ H]. now apply IH.
Qed.

Lemma hasChar_replaceAtStart (c : ascii) (lit s : string) :
  hasChar c s = false -> hasChar c (replaceAtStart lit s) = false.
Proof.
  unfold replaceAtStart. intros H.
  destruct (startsWith s lit); [now apply hasChar_drop | exact H].
Qed.

(** A string that ends with [x] has the characters of [x]. *)
Lemma endsWith_hasChar (c : ascii) (s x : string) :
  endsWith s x = true -> hasChar c s = false -> hasChar c x = false.
Proof.
  intros [front ->]%endsWith_spec H.
  rewrite hasChar_app in H. now apply orb_false_iff in H.
Qed.

Lemma replaceAtStart_app (lit rest : string) :
  replaceAtStart lit (lit ++ rest) = rest.
Proof. unfold replaceAtStart. now rewrite startsWith_app, drop_app. Qed.

(** [branches.length > 0] after a filter is an existence test. *)
Lemma ltb_length_filter {A : Type} (p : A -> bool) (l : list A) :
  Nat.ltb 0 (List.length (filter p l)) = existsb p l.
Proof.
  induction l as [|x l IH]; [reflexivity|].
  simpl. destruct (p x); [reflexivity | exact IH].
Qed.

Lemma filterNotNull_app (xs ys : list (option string)) :
  filterNotNull (xs ++ ys) = (filterNotNull xs ++ filterNotNull ys)%list.
Proof.
  induction xs as [|[x|] xs IH]; simpl; [reflexivity | now rewrite IH | exact IH].
Qed.

(** A line without a tab gives no remote name; a line without a null
    byte gives no annotated name. *)
Lemma fetchRemoteTags_line_no_tab (line : string) :
  hasChar TAB line = false -> fetchRemoteTags_line line = None.
Proof.
  intros H. unfold fetchRemoteTags_line. now rewrite (split_no_sep _ _ H).
Qed.

Lemma getAnnotatedTags_tagLine_no_nul (tagLine : string) :
  hasChar NUL tagLine = false -> getAnnotatedTags_tagLine tagLine = "".
Proof.
  intros H. unfold getAnnotatedTags_tagLine. rewrite (split_no_sep _ _ H).
  now destruct (String.eqb tagLine "").
Qed.

(** The callback of [getAnnotatedTags] on the line of a named tag. *)
Lemma getAnnotatedTags_tagLine_named (n objectType : string) :
  hasChar NUL n = false -> hasChar NUL objectType = false ->
  getAnnotatedTags_tagLine (n ++ nul ++ objectType)
  = if String.eqb objectType "tag" then n else "".
Proof.
  intros Hn Ht. unfold getAnnotatedTags_tagLine.
  change (nul ++ objectType) with (String NUL objectType).
  rewrite (split_app_sep _ _ _ Hn), (split_no_sep _ _ Ht).
  destruct (String.eqb_spec (n ++ String NUL objectType) "") as [E|_].
  - destruct n; discriminate E.
  - now destruct (String.eqb objectType "tag").
Qed.

End MoreFacts.

(** ** Listings printed by the tool, read back *)

Module ReadBack.
Import JSFacts Lines MoreFacts.

Lemma hasChar_tagRef (c : ascii) (n : string) :
  hasChar c "refs/tags/" = false -> hasChar c n = false ->
  hasChar c (tagRef n) = false.
Proof. intros H1 H2. unfold tagRef. now rewrite hasChar_app, H1, H2. Qed.

Lemma hasChar_peeledRef (c : ascii) (n : string) :
  hasChar c "refs/tags/" = false -> hasChar c n = false ->
  hasChar c "^{}" = false ->
  hasChar c (peeledRef n) = false.
Proof.
  intros H1 H2 H3. unfold peeledRef.
  now rewrite hasChar_app, (hasChar_tagRef _ _ H1 H2), H3.
Qed.

Lemma plainTagName_split (n : string) :
  plainTagName n = true ->
  hasChar TAB n = false /\ hasChar LF n = false
  /\ hasChar CARET n = false /\ startsWith n "{}" = false.
Proof.
  unfold plainTagName, isField.
  rewrite !andb_true_iff, !negb_true_iff. tauto.
Qed.

(** The line of a tag gives the name of the tag. *)
Lemma fetchRemoteTags_line_tagRef (id n : string) :
  hasChar TAB id = false -> plainTagName n = true ->
  fetchRemoteTags_line (id ++ tab ++ tagRef n) = Some n.
Proof.
  intros Hid (Ht & _ & Hc & Hb)%plainTagName_split.
  rewrite fetchRemoteTags_line_entry;
    [|exact Hid | now apply hasChar_tagRef].
  change (String.eqb (tagRef n) "") with false. cbv iota.
  destruct (endsWith (tagRef n) "^{}") eqn:E.
  - apply (endsWith_hasChar CARET) in E; [discriminate E|].
    now apply hasChar_tagRef.
  - unfold tagRef. now rewrite replaceAtStart_app, (replaceAtStart_id _ _ Hb).
Qed.

(** The peeled line of a tag gives nothing. *)
Lemma fetchRemoteTags_line_peeledRef (id n : string) :
  hasChar TAB id = false -> hasChar TAB n = false ->
  fetchRemoteTags_line (id ++ tab ++ peeledRef n) = None.
Proof.
  intros Hid Hn.
  rewrite fetchRemoteTags_line_entry;
    [|exact Hid | now apply hasChar_peeledRef].
  change (String.eqb (peeledRef n) "") with false. cbv iota.
  unfold peeledRef. now rewrite (endsWith_app _ _ _ (endsWith_refl "^{}")).
Qed.

Lemma parse_remoteListing (tags : list RemoteTag) :
  forallb wellFormedRemoteTag tags = true ->
  filterNotNull (map fetchRemoteTags_line (split LF (remoteListing tags)))
  = map rt_name tags.
Proof.
  induction tags as [|[id n peeled] tags IH]; [reflexivity|].
  cbn [forallb]. intros [Hw Hrest]%andb_true_iff.
  unfold wellFormedRemoteTag in Hw. cbn [rt_id rt_name rt_peeled] in Hw.
  apply andb_true_iff in Hw as [[Hid Hn]%andb_true_iff Hpeeled].
  apply isField_split in Hid as [HidT HidL].
  destruct (plainTagName_split _ Hn) as (HnT & HnL & _ & _).
  cbn [remoteListing rt_id rt_name rt_peeled map].
  rewrite split_LF_entry; [|exact HidL | now apply hasChar_tagRef].
  cbn [map filterNotNull]. rewrite (fetchRemoteTags_line_tagRef _ _ HidT Hn).
  f_equal. destruct peeled as [pid|]; [|exact (IH Hrest)].
  apply isField_split in Hpeeled as [HpT HpL].
  rewrite split_LF_entry; [|exact HpL | now apply hasChar_peeledRef].
  cbn [map filterNotNull]. rewrite (fetchRemoteTags_line_peeledRef _ _ HpT HnT).
  exact (IH Hrest).
Qed.

Lemma parse_plainListing (tags : list (string * string)) :
  forallb listedName tags = true ->
  filter (fun s => negb (String.eqb s "")) (split LF (plainListing tags))
  = map fst tags.
Proof.
  induction tags as [|[n objectType] tags IH]; [reflexivity|].
  cbn [forallb plainListing map fst]. intros [Hn Hrest]%andb_true_iff.
  unfold listedName in Hn. cbn [fst] in Hn.
  apply andb_true_iff in Hn as [Hne Hlf]. apply negb_true_iff in Hlf.
  change (lf ++ plainListing tags) with (String LF (plainListing tags)).
  rewrite (split_app_sep _ _ _ Hlf). cbn [filter].
  now rewrite Hne, (IH Hrest).
Qed.

Lemma parse_formattedListing (tags : list (string * string)) :
  forallb wellFormedTag tags = true ->
  forallb namedTag tags = true ->
  forallb plainObjectType tags = true ->
  filter (fun tag => negb (String.eqb tag ""))
    (map getAnnotatedTags_tagLine
       (map (fun t => fst t ++ nul ++ snd t) tags ++ [""]))
  = map fst (filter isAnnotated tags).
Proof.
  induction tags as [|[n objectType] tags IH]; [reflexivity|].
  cbn [forallb]. intros [Hw Hws]%andb_true_iff [Hn Hns]%andb_true_iff
    [Ht Hts]%andb_true_iff.
  unfold wellFormedTag in Hw. rewrite !andb_true_iff, !negb_true_iff in Hw.
  destruct Hw as [[_ Hnul] _]. cbn [fst] in Hnul.
  unfold namedTag in Hn. unfold plainObjectType in Ht.
  apply negb_true_iff in Ht. cbn [fst snd] in Hn, Ht.
  cbn [map app filter fst snd]. unfold isAnnotated at 1. cbn [snd].
  rewrite (getAnnotatedTags_tagLine_named _ _ Hnul Ht), (IH Hws Hns Hts).
  destruct (String.eqb objectType "tag"); [now rewrite Hn | reflexivity].
Qed.

End ReadBack.

(** ** Further properties of the operations *)

Section MoreProperties.
Import JSFacts Lines MoreFacts ReadBack.

Variable git : list string -> string -> string -> Promise IGitExecutionResult.
Variable gitNetworkArguments :
  Repository -> option IGitAccount -> Promise (list string).

(** X1.  Read back from the listing the tool prints for a remote, one
    line per tag and a peeled line after each annotated tag,
    [fetchRemoteTags] resolves to the names of the tags, each once and
    in the order of the listing, whether annotated or lightweight and
    whatever the object ids are. *)
Theorem X1_fetchRemoteTags_reads_back_remote_listing
    (tags : list RemoteTag) (repository : Repository)
    (account : option IGitAccount) (remote : IRemote)
    (networkArguments : list string) (r : IGitExecutionResult) :
  forallb wellFormedRemoteTag tags = true ->
  stdout r = remoteListing tags ->
  gitNetworkArguments repository account = resolve networkArguments ->
  git (fetchRemoteTags_args networkArguments remote) (path repository)
    "fetchUnpushedTags" = resolve r ->
  fetchRemoteTags git gitNetworkArguments repository account remote
  = resolve (map rt_name tags).
Proof.
  intros Hw Hout Hn H.
  rewrite (fetchRemoteTags_resolves _ _ _ _ _ _ _ Hn H), Hout.
  now rewrite parse_remoteListing.
Qed.

(** X2.  Read back from the plain listing of tags with non-empty,
    newline-free names, [getAllTags] resolves to exactly those names, in
    the order of the listing. *)
Theorem X2_getAllTags_reads_back_plain_listing
    (tags : list (string * string)) (repository : Repository)
    (r : IGitExecutionResult) :
  forallb listedName tags = true ->
  stdout r = plainListing tags ->
  git ["tag"] (path repository) "getAllTags" = resolve r ->
  getAllTags git repository = resolve (map fst tags).
Proof.
  intros Hnames Hout H.
  rewrite (getAllTags_resolves _ _ _ H), Hout.
  now rewrite parse_plainListing.
Qed.

(** X3.  Read back from the formatted listing of the same tags,
    [getAnnotatedTags] resolves to exactly the names of the tags whose
    object type is [tag], in the order of the listing: every other
    object type ([commit], [tree], [blob], anything) is left out. *)
Theorem X3_getAnnotatedTags_reads_back_formatted_listing
    (tags : list (string * string)) (repository : Repository)
    (r : IGitExecutionResult) :
  forallb wellFormedTag tags = true ->
  forallb namedTag tags = true ->
  forallb plainObjectType tags = true ->
  stdout r = formattedListing tags ->
  git getAnnotatedTags_args (path repository) "getAnnotatedTags" = resolve r ->
  getAnnotatedTags git repository = resolve (map fst (filter isAnnotated tags)).
Proof.
  intros Hw Hnamed Htypes Hout H.
  rewrite (getAnnotatedTags_resolves _ _ _ H), Hout,
    (split_formattedListing _ Hw).
  now rewrite parse_formattedListing.
Qed.

(** X4.  No name [fetchRemoteTags] resolves to holds a tab or a
    newline, and no name [getAnnotatedTags] resolves to holds a null
    byte, whatever the runner printed. *)
Theorem X4_names_hold_no_separator
    (repository : Repository) (account : option IGitAccount) (remote : IRemote)
    (networkArguments : list string) (r : IGitExecutionResult) :
  (gitNetworkArguments repository account = resolve networkArguments ->
   git (fetchRemoteTags_args networkArguments remote) (path repository)
     "fetchUnpushedTags" = resolve r ->
   exists tags,
     fetchRemoteTags git gitNetworkArguments repository account remote
     = resolve tags
     /\ forall t, In t tags -> hasChar TAB t = false /\ hasChar LF t = false)
  /\ (git getAnnotatedTags_args (path repository) "getAnnotatedTags" = resolve r ->
      exists tags,
        getAnnotatedTags git repository = resolve tags
        /\ forall t, In t tags -> hasChar NUL t = false).
Proof.
  split.
  - intros Hn H.
    rewrite (fetchRemoteTags_resolves _ _ _ _ _ _ _ Hn H), filterNotNull_map_line.
    eexists; split; [reflexivity|].
    intros t (refPath & <- & Hin)%in_map_iff.
    apply in_flat_map in Hin as (line & Hline & Href).
    apply unpeeledRefPath_inv in Href as (_ & _ & sha & rest & Hsplit).
    assert (Hfield : In refPath (split TAB line))
      by (rewrite Hsplit; right; now left).
    unfold normalizedName. split; do 2 apply hasChar_replaceAtStart.
    + eapply split_field_no_sep, Hfield.
    + apply (split_field_chars TAB LF line); [exact Hfield|].
      eapply split_field_no_sep, Hline.
  - intros H. rewrite (getAnnotatedTags_resolves _ _ _ H).
    eexists; split; [reflexivity|]. intros t [Hin Hne]%filter_In.
    apply in_map_iff in Hin as (tagLine & <- & _).
    assert (Hne' : getAnnotatedTags_tagLine tagLine <> "").
    { intros E. rewrite E in Hne. discriminate. }
    destruct (getAnnotatedTags_tagLine_inv _ Hne') as [rest Hsplit].
    apply (split_field_no_sep NUL tagLine). rewrite Hsplit. now left.
Qed.

(** X5.  Output in which the field separator never occurs gives no
    name: [fetchRemoteTags] resolves to the empty sequence when the
    output holds no tab, [getAnnotatedTags] when it holds no null byte
    (messages, blank lines, a plain list of names). *)
Theorem X5_output_without_separator_gives_no_name
    (repository : Repository) (account : option IGitAccount) (remote : IRemote)
    (networkArguments : list string) (r : IGitExecutionResult) :
  (hasChar TAB (stdout r) = false ->
   gitNetworkArguments repository account = resolve networkArguments ->
   git (fetchRemoteTags_args networkArguments remote) (path repository)
     "fetchUnpushedTags" = resolve r ->
   fetchRemoteTags git gitNetworkArguments repository account remote
   = resolve [])
  /\ (hasChar NUL (stdout r) = false ->
      git getAnnotatedTags_args (path repository) "getAnnotatedTags" = resolve r ->
      getAnnotatedTags git repository = resolve []).
Proof.
  split.
  - intros Hc Hn H. rewrite (fetchRemoteTags_resolves _ _ _ _ _ _ _ Hn H).
    f_equal.
    assert (Hlines : forall line, In line (split LF (stdout r)) ->
                                  fetchRemoteTags_line line = None).
    { intros line Hin. apply fetchRemoteTags_line_no_tab.
      now apply (split_field_chars LF TAB (stdout r)). }
    induction (split LF (stdout r)) as [|line lines IH]; [reflexivity|].
    cbn [map filterNotNull]. rewrite (Hlines line) by now left.
    apply IH. intros l Hl. apply Hlines. now right.
  - intros Hc H. rewrite (getAnnotatedTags_resolves _ _ _ H).
    f_equal.
    assert (Hlines : forall line, In line (split LF (stdout r)) ->
                                  getAnnotatedTags_tagLine line = "").
    { intros line Hin. apply getAnnotatedTags_tagLine_no_nul.
      now apply (split_field_chars LF NUL (stdout r)). }
    induction (split LF (stdout r)) as [|line lines IH]; [reflexivity|].
    cbn [map filter]. rewrite (Hlines line) by now left.
    apply IH. intros l Hl. apply Hlines. now right.
Qed.

(** X6.  The check matches on the text [<name>/] only: when the name of
    one remote is the name of another followed by a slash and more
    (as [origin/fork] after [origin]), every tag found reachable by the
    longer-named remote is found reachable by the shorter-named one on
    the same output. *)
Theorem X6_isTagReachableByRemote_counts_nested_remote_names
    (repository : Repository) (tag : string) (outer inner : IRemote)
    (rest : string) (r : IGitExecutionResult) :
  name inner = name outer ++ "/" ++ rest ->
  git (isTagReachableByRemote_args tag) (path repository)
    "isTagReachableByRemote" = resolve r ->
  isTagReachableByRemote git repository tag inner = resolve true ->
  isTagReachableByRemote git repository tag outer = resolve true.
Proof.
  intros Hname H.
  rewrite !(isTagReachableByRemote_resolves _ _ _ _ _ H), !ltb_length_filter.
  intros Hinner. injection Hinner as Hinner. f_equal.
  apply existsb_exists in Hinner as (line & Hin & Hp).
  apply existsb_exists. exists line. split; [exact Hin|].
  apply startsWith_spec in Hp as [more ->]. rewrite Hname.
  rewrite !append_assoc. rewrite <- (append_assoc (name outer) "/").
  apply startsWith_app.
Qed.

End MoreProperties.

(** ** Branch listings, concatenated outputs and failures *)

Module Branches.
Import JSFacts Lines MoreFacts.

Lemma split_branchListing (branches : list (string * string)) :
  forallb wellFormedBranch branches = true ->
  split LF (branchListing branches)
  = (map (fun b => (fst b ++ "/" ++ snd b)%string) branches ++ [""])%list.
Proof.
  induction branches as [|[remoteName branch] branches IH]; [reflexivity|].
  cbn [forallb branchListing map fst snd app]. intros [Hw Hrest]%andb_true_iff.
  unfold wellFormedBranch in Hw. rewrite !andb_true_iff, !negb_true_iff in Hw.
  destruct Hw as [[_ Hr] Hb]. cbn [fst snd] in Hr, Hb.
  replace (remoteName ++ "/" ++ branch ++ lf ++ branchListing branches)
    with ((remoteName ++ "/" ++ branch) ++ String LF (branchListing branches))
    by (now rewrite !append_assoc).
  rewrite split_app_sep, (IH Hrest); [reflexivity|].
  rewrite !hasChar_app, Hr, Hb. reflexivity.
Qed.

(** With no slash in either remote name, [<remote>/<branch>] starts
    with [<name>/] exactly when the remote is [name]. *)
Lemma startsWith_remote (remoteName branch n : string) :
  hasChar SLASH remoteName = false -> hasChar SLASH n = false ->
  startsWith (remoteName ++ "/" ++ branch) (n ++ "/") = String.eqb remoteName n.
Proof.
  intros Hr Hn. destruct (String.eqb_spec remoteName n) as [->|Hne].
  - rewrite <- append_assoc. apply startsWith_app.
  - destruct (startsWith _ _) eqn:E; [|reflexivity].
    apply startsWith_spec in E as [more E]. rewrite append_assoc in E.
    apply (f_equal (split SLASH)) in E.
    change ("/" ++ branch) with (String SLASH branch) in E.
    change ("/" ++ more) with (String SLASH more) in E.
    rewrite (split_app_sep _ _ _ Hr), (split_app_sep _ _ _ Hn) in E.
    now injection E.
Qed.

Lemma existsb_map_in {A B : Type} (f : A -> B) (p : B -> bool) (q : A -> bool)
    (l : list A) :
  (forall x, In x l -> p (f x) = q x) ->
  existsb p (map f l) = existsb q l.
Proof.
  induction l as [|x l IH]; [reflexivity|].
  intros H. cbn [map existsb]. rewrite (H x) by now left.
  f_equal. apply IH. intros y Hy. apply H. now right.
Qed.

End Branches.

Section Composition.
Import JSFacts Lines MoreFacts Branches.

Variables gitA gitB gitAB
  : list string -> string -> string -> Promise IGitExecutionResult.
Variable git : list string -> string -> string -> Promise IGitExecutionResult.
Variable gitNetworkArguments :
  Repository -> option IGitAccount -> Promise (list string).

(** X7.  The parsers work line by line: when one output is two outputs
    joined by a newline, each listing resolves to the names of the first
    followed by the names of the second, and the reachability check to
    the disjunction of the two checks. *)
Theorem X7_operations_on_joined_outputs
    (repository : Repository) (account : option IGitAccount) (remote : IRemote)
    (tag : string) (networkArguments : list string)
    (rA rB rAB : IGitExecutionResult) :
  stdout rAB = stdout rA ++ lf ++ stdout rB ->
  (gitA ["tag"] (path repository) "getAllTags" = resolve rA ->
   gitB ["tag"] (path repository) "getAllTags" = resolve rB ->
   gitAB ["tag"] (path repository) "getAllTags" = resolve rAB ->
   exists a b,
     getAllTags gitA repository = resolve a
     /\ getAllTags gitB repository = resolve b
     /\ getAllTags gitAB repository = resolve (a ++ b)%list)
  /\ (gitA getAnnotatedTags_args (path repository) "getAnnotatedTags" = resolve rA ->
      gitB getAnnotatedTags_args (path repository) "getAnnotatedTags" = resolve rB ->
      gitAB getAnnotatedTags_args (path repository) "getAnnotatedTags" = resolve rAB ->
      exists a b,
        getAnnotatedTags gitA repository = resolve a
        /\ getAnnotatedTags gitB repository = resolve b
        /\ getAnnotatedTags gitAB repository = resolve (a ++ b)%list)
  /\ (gitNetworkArguments repository account = resolve networkArguments ->
      gitA (fetchRemoteTags_args networkArguments remote) (path repository)
        "fetchUnpushedTags" = resolve rA ->
      gitB (fetchRemoteTags_args networkArguments remote) (path repository)
        "fetchUnpushedTags" = resolve rB ->
      gitAB (fetchRemoteTags_args networkArguments remote) (path repository)
        "fetchUnpushedTags" = resolve rAB ->
      exists a b,
        fetchRemoteTags gitA gitNetworkArguments repository account remote
        = resolve a
        /\ fetchRemoteTags gitB gitNetworkArguments repository account remote
           = resolve b
        /\ fetchRemoteTags gitAB gitNetworkArguments repository account remote
           = resolve (a ++ b)%list)
  /\ (gitA (isTagReachableByRemote_args tag) (path repository)
        "isTagReachableByRemote" = resolve rA ->
      gitB (isTagReachableByRemote_args tag) (path repository)
        "isTagReachableByRemote" = resolve rB ->
      gitAB (isTagReachableByRemote_args tag) (path repository)
        "isTagReachableByRemote" = resolve rAB ->
      exists a b,
        isTagReachableByRemote gitA repository tag remote = resolve a
        /\ isTagReachableByRemote gitB repository tag remote = resolve b
        /\ isTagReachableByRemote gitAB repository tag remote
           = resolve (a || b)).
Proof.
  intros Hout.
  assert (Hlines : split LF (stdout rAB)
                   = (split LF (stdout rA) ++ split LF (stdout rB))%list).
  { rewrite Hout. change (lf ++ stdout rB) with (String LF (stdout rB)).
    apply split_app. }
  split; [|split; [|split]].
  - intros HA HB HAB.
    rewrite (getAllTags_resolves _ _ _ HA), (getAllTags_resolves _ _ _ HB),
      (getAllTags_resolves _ _ _ HAB), Hlines, filter_app.
    do 2 eexists; repeat split.
  - intros HA HB HAB.
    rewrite (getAnnotatedTags_resolves _ _ _ HA),
      (getAnnotatedTags_resolves _ _ _ HB),
      (getAnnotatedTags_resolves _ _ _ HAB), Hlines, map_app, filter_app.
    do 2 eexists; repeat split.
  - intros Hn HA HB HAB.
    rewrite (fetchRemoteTags_resolves _ _ _ _ _ _ _ Hn HA),
      (fetchRemoteTags_resolves _ _ _ _ _ _ _ Hn HB),
      (fetchRemoteTags_resolves _ _ _ _ _ _ _ Hn HAB),
      Hlines, map_app, filterNotNull_app.
    do 2 eexists; repeat split.
  - intros HA HB HAB.
    rewrite (isTagReachableByRemote_resolves _ _ _ _ _ HA),
      (isTagReachableByRemote_resolves _ _ _ _ _ HB),
      (isTagReachableByRemote_resolves _ _ _ _ _ HAB),
      Hlines, !ltb_length_filter, existsb_app.
    do 2 eexists; repeat split.
Qed.

(** X8.  Read back from the listing of remote-tracking branches, when
    no remote name holds a slash, the check resolves to [true] exactly
    when one of the listed branches belongs to the remote. *)
Theorem X8_isTagReachableByRemote_reads_back_branch_listing
    (branches : list (string * string)) (repository : Repository)
    (tag : string) (remote : IRemote) (r : IGitExecutionResult) :
  forallb wellFormedBranch branches = true ->
  hasChar SLASH (name remote) = false ->
  stdout r = branchListing branches ->
  git (isTagReachableByRemote_args tag) (path repository)
    "isTagReachableByRemote" = resolve r ->
  isTagReachableByRemote git repository tag remote
  = resolve (existsb (fun b => String.eqb (fst b) (name remote)) branches).
Proof.
  intros Hw Hname Hout H.
  rewrite (isTagReachableByRemote_resolves _ _ _ _ _ H), Hout,
    (split_branchListing _ Hw), ltb_length_filter, existsb_app.
  f_equal.
  replace (existsb _ [""]) with false
    by (simpl; now destruct (name remote)).
  rewrite orb_false_r.
  apply existsb_map_in. intros [remoteName branch] Hin. cbn [fst snd].
  apply startsWith_remote; [|exact Hname].
  rewrite forallb_forall in Hw. specialize (Hw _ Hin).
  unfold wellFormedBranch in Hw. rewrite !andb_true_iff, !negb_true_iff in Hw.
  now destruct Hw as [[Hs _] _].
Qed.

(** X9.  No operation recovers from a failure: the rejection of the
    runner is the rejection of the operation, [createTag] resolves as
    soon as the runner does, and [fetchRemoteTags] is rejected with the
    failure of the network-argument provider whatever the runner would
    answer. *)
Theorem X9_failures_reach_the_caller
    (repository : Repository) (account : option IGitAccount) (remote : IRemote)
    (tagName targetCommitSha : string) (e : GitError) :
  (git ["tag"; "-a"; "-m"; ""; tagName; targetCommitSha] (path repository)
     "createTag" = reject e ->
   createTag git repository tagName targetCommitSha = reject e)
  /\ (forall r,
        git ["tag"; "-a"; "-m"; ""; tagName; targetCommitSha] (path repository)
          "createTag" = resolve r ->
        createTag git repository tagName targetCommitSha = resolve tt)
  /\ (git ["tag"] (path repository) "getAllTags" = reject e ->
      getAllTags git repository = reject e)
  /\ (git getAnnotatedTags_args (path repository) "getAnnotatedTags" = reject e ->
      getAnnotatedTags git repository = reject e)
  /\ (gitNetworkArguments repository account = reject e ->
      fetchRemoteTags git gitNetworkArguments repository account remote
      = reject e)
  /\ (forall networkArguments,
        gitNetworkArguments repository account = resolve networkArguments ->
        git (fetchRemoteTags_args networkArguments remote) (path repository)
          "fetchUnpushedTags" = reject e ->
        fetchRemoteTags git gitNetworkArguments repository account remote
        = reject e)
  /\ (git (isTagReachableByRemote_args tagName) (path repository)
        "isTagReachableByRemote" = reject e ->
      isTagReachableByRemote git repository tagName remote = reject e).
Proof.
  repeat split.
  - unfold createTag; simpl. now intros ->.
  - unfold createTag; simpl. now intros r ->.
  - apply getAllTags_rejects.
  - intros H. unfold getAnnotatedTags. cbv zeta.
    change ["tag"; "--format=" ++ annotatedFormat] with getAnnotatedTags_args.
    now rewrite H.
  - unfold fetchRemoteTags. cbn [bind Monad_Promise Monad_either].
    now intros ->.
  - unfold fetchRemoteTags, fetchRemoteTags_args. intros networkArguments H1 H2.
    cbn [bind Monad_Promise Monad_either]. rewrite H1.
    unfold resolve at 1. cbv zeta. now rewrite H2.
  - unfold isTagReachableByRemote, isTagReachableByRemote_args; simpl.
    now intros ->.
Qed.

End Composition.

(** *** The further properties at concrete runner outputs *)

Lemma X1_witness :
  fetchRemoteTags (cannedGit (remoteListing twoRemoteTags)) noNetworkArguments
    someRepository None origin = resolve ["v1"; "v2"].
Proof.
  apply (X1_fetchRemoteTags_reads_back_remote_listing
           (cannedGit (remoteListing twoRemoteTags)) noNetworkArguments
           twoRemoteTags someRepository None origin []
           {| stdout := remoteListing twoRemoteTags |});
    reflexivity.
Defined.

Lemma X2_witness :
  getAllTags (cannedGit (plainListing threeTags)) someRepository
  = resolve ["v1"; "v2"; "v3"].
Proof.
  apply (X2_getAllTags_reads_back_plain_listing
           (cannedGit (plainListing threeTags)) threeTags someRepository
           {| stdout := plainListing threeTags |});
    reflexivity.
Defined.

Lemma X3_witness :
  getAnnotatedTags (cannedGit (formattedListing threeTags)) someRepository
  = resolve ["v1"; "v3"].
Proof.
  apply (X3_getAnnotatedTags_reads_back_formatted_listing
           (cannedGit (formattedListing threeTags)) threeTags someRepository
           {| stdout := formattedListing threeTags |});
    reflexivity.
Defined.

Lemma X4_witness :
  exists tags,
    fetchRemoteTags (cannedGit peeledListing) noNetworkArguments someRepository
      None origin = resolve tags
    /\ forall t, In t tags -> hasChar TAB t = false /\ hasChar LF t = false.
Proof.
  apply (X4_names_hold_no_separator (cannedGit peeledListing) noNetworkArguments
           someRepository None origin [] {| stdout := peeledListing |});
    reflexivity.
Defined.

Lemma X5_witness :
  fetchRemoteTags (cannedGit (plainListing threeTags)) noNetworkArguments
    someRepository None origin = resolve []
  /\ getAnnotatedTags (cannedGit (plainListing threeTags)) someRepository
     = resolve [].
Proof.
  destruct (X5_output_without_separator_gives_no_name
              (cannedGit (plainListing threeTags)) noNetworkArguments
              someRepository None origin []
              {| stdout := plainListing threeTags |}) as [Hremote Hannotated].
  split; [apply Hremote; reflexivity | apply Hannotated; reflexivity].
Defined.

Lemma X6_witness :
  isTagReachableByRemote (cannedGit ("origin/fork/main" ++ lf)) someRepository
    "v1" origin = resolve true.
Proof.
  apply (X6_isTagReachableByRemote_counts_nested_remote_names
           (cannedGit ("origin/fork/main" ++ lf)) someRepository "v1"
           origin originFork "fork" {| stdout := "origin/fork/main" ++ lf |});
    reflexivity.
Defined.

Lemma X7_witness :
  exists a b,
    getAllTags (cannedGit "v1") someRepository = resolve a
    /\ getAllTags (cannedGit ("v2" ++ lf ++ "v3")) someRepository = resolve b
    /\ getAllTags (cannedGit ("v1" ++ lf ++ "v2" ++ lf ++ "v3")) someRepository
       = resolve (a ++ b)%list.
Proof.
  destruct (X7_operations_on_joined_outputs
              (cannedGit "v1") (cannedGit ("v2" ++ lf ++ "v3"))
              (cannedGit ("v1" ++ lf ++ "v2" ++ lf ++ "v3")) noNetworkArguments
              someRepository None origin "v1" []
              {| stdout := "v1" |} {| stdout := "v2" ++ lf ++ "v3" |}
              {| stdout := "v1" ++ lf ++ "v2" ++ lf ++ "v3" |} eq_refl)
    as [Hall _].
  apply Hall; reflexivity.
Defined.

Lemma X8_witness :
  isTagReachableByRemote (cannedGit (branchListing twoRemotesBranches))
    someRepository "v1" origin = resolve true.
Proof.
  apply (X8_isTagReachableByRemote_reads_back_branch_listing
           (cannedGit (branchListing twoRemotesBranches)) twoRemotesBranches
           someRepository "v1" origin
           {| stdout := branchListing twoRemotesBranches |});
    reflexivity.
Defined.

Lemma X9_witness :
  getAllTags (failingGit notARepository) someRepository = reject notARepository
  /\ fetchRemoteTags (cannedGit peeledListing)
       (failingNetworkArguments notARepository) someRepository None origin
     = reject notARepository.
Proof.
  split.
  - destruct (X9_failures_reach_the_caller (failingGit notARepository)
                noNetworkArguments someRepository None origin "v1" "0a1b"
                notARepository) as (_ & _ & Hall & _).
    apply Hall. reflexivity.
  - destruct (X9_failures_reach_the_caller (cannedGit peeledListing)
                (failingNetworkArguments notARepository) someRepository None
                origin "v1" "0a1b" notARepository)
      as (_ & _ & _ & _ & Hprovider & _).
    apply Hprovider. reflexivity.
Defined.
